(** * Early decoder of Terraform modules: a shallow embedding

  This development embeds [earlydecoder/load_module.go] (package
  [earlydecoder]) and [module.ModuleSource] in Rocq and proves properties
  of provider-reference resolution, of the merging of [required_providers]
  declarations and of the block dispatcher.

  Conventions.
  - Go structs are records.  A field keeps its Go name when that name is
    unique in this file and is written [Struct_Field] otherwise.
  - Go maps are [gmap]s, slices are lists, [append] is [++].
  - Go interfaces of [hcl] ([Expression], [Body]) are records of what the
    decoder observes through them.
  - What the package takes from elsewhere (schemas, helpers of other
    files, [hclsyntax.ParseTraversalAbs]) is the class [Collaborators];
    the module [Example] gives one instance, for the examples.
  - The maps of the accumulator hold pointers.  Pointers to records that
    the code mutates after storing them are addresses into typed cell
    lists of a [Memory]; [&T{...}] appends a cell.
  - A Go run-time panic (index out of range, nil dereference, [RootName]
    on a relative traversal) is the outcome [None] of the monad [M]; the
    state reached at the moment of the panic is kept. *)

From Stdlib Require Import Ascii.
From stdpp Require Import base option list gmap strings fin_maps.

Local Open Scope string_scope.
Local Open Scope list_scope.

#[local] Set Warnings "-register-all".

(** ** The [hcl] data the decoder consumes *)

Module hcl.

Record Pos := { Line : Z; Column : Z; Byte : Z }.

Record Range := { Filename : string; Start : Pos; End_ : Pos }.

(** [hcl.DiagnosticSeverity]: [DiagInvalid] is the zero value. *)
Inductive DiagnosticSeverity := DiagInvalid | DiagError | DiagWarning.

Record Diagnostic := {
  Severity : DiagnosticSeverity;
  Summary  : string;
  Detail   : string;
  Subject  : option Range;
  Context  : option Range
}.

Definition Diagnostics := list Diagnostic.

Definition isError (d : Diagnostic) : bool :=
  match Severity d with DiagError => true | _ => false end.

(** [Diagnostics.HasErrors]: some element has severity [DiagError]. *)
Definition HasErrors (ds : Diagnostics) : bool := existsb isError ds.

(** Keys of index steps ([cty.Value] in Go), as far as a traversal
    written in configuration can carry them. *)
Inductive IndexKey := KeyString (s : string) | KeyNumber (n : Z).

(** [hcl.Traverser]: the steps of a traversal, each with its range. *)
Inductive Traverser :=
| TraverseRoot  (Name : string) (SrcRange : Range)
| TraverseAttr  (Name : string) (SrcRange : Range)
| TraverseIndex (Key : IndexKey) (SrcRange : Range)
| TraverseSplat (Each : list Traverser) (SrcRange : Range).

Definition Traversal := list Traverser.

(** [Traversal.RootName] panics on a relative traversal, that is, on an
    empty one or on one whose first step is not a [TraverseRoot]. *)
Definition RootName (t : Traversal) : option string :=
  match t with
  | TraverseRoot name _ :: _ => Some name
  | _ => None
  end.

(** [hcl.Expression] is an interface.  The decoder observes an
    expression only through [Range()], [hcl.AbsTraversalForExpr] and
    [gohcl.DecodeExpression(expr, nil, &s)] with [s] a fresh string
    variable: an expression is the record of these observations.
    [DecodeExpression] gives the content of the target after the call
    (the target is the empty string before it, at every call site) and
    the diagnostics of the call. *)
Record Expression := {
  Expression_Range    : Range;
  AbsTraversalForExpr : Traversal * Diagnostics;
  DecodeExpression    : string * Diagnostics
}.

Record Attribute := { Attribute_Name : string; Expr : Expression }.

Record AttributeSchema := { AttributeSchema_Name : string; Required : bool }.

Record BlockHeaderSchema := { BlockHeaderSchema_Type : string; LabelNames : list string }.

Record BodySchema := {
  BodySchema_Attributes : list AttributeSchema;
  BodySchema_Blocks     : list BlockHeaderSchema
}.

Record BlockOf (B : Type) := {
  Block_Type : string;
  Labels     : list string;
  Block_Body : B;
  DefRange   : Range
}.
Arguments Block_Type {B} _.
Arguments Labels {B} _.
Arguments Block_Body {B} _.
Arguments DefRange {B} _.

Record BodyContentOf (B : Type) := {
  Attributes : gmap string Attribute;
  Blocks     : list (BlockOf B)
}.
Arguments Attributes {B} _.
Arguments Blocks {B} _.

(** [hcl.Body] is an interface; the decoder only calls
    [PartialContent], dropping the remaining body. *)
Inductive Body := MkBody {
  PartialContent : BodySchema -> BodyContentOf Body * Diagnostics
}.

Definition Block := BlockOf Body.
Definition BodyContent := BodyContentOf Body.

Record File := { File_Body : Body }.

End hcl.
Export hcl.

(** ** Package [module] *)

Module module.

Record ProviderRef := { LocalName : string; ProviderRef_Alias : string }.

Record ModuleSource := { ModuleSource_Source : string; ModuleSource_Name : string }.

(** [fmt.Sprintf("module.%s", r.Name)] *)
Definition ModuleSource_MapKey (r : ModuleSource) : string :=
  "module." +:+ ModuleSource_Name r.

End module.
Export module.

(** ** Package [earlydecoder]: the accumulator *)

(** Modelled from the spec: [providerRequirement], [resource] and
    [dataSource] are declared in files of the package other than
    [load_module.go].  Their fields are those of the data model of the
    specification, which are the ones [load_module.go] reads and writes. *)
Record providerRequirement := {
  providerRequirement_Source : string;
  VersionConstraints : list string
}.

(** [providerConfig] represents a provider block in the configuration. *)
Record providerConfig := {
  providerConfig_Name : string;
  providerConfig_Alias : string
}.

Record resource := {
  resource_Type : string;
  resource_Name : string;
  resource_Provider : ProviderRef
}.

Record dataSource := {
  dataSource_Type : string;
  dataSource_Name : string;
  dataSource_Provider : ProviderRef
}.

(** A pointer is the index of a cell.  The accumulators the decoder
    builds only hold indices of existing cells ([wellFormed] below);
    dereferencing an index without a cell is a nil dereference. *)
Abbreviation ptr := nat (only parsing).

(** [decodedModule] is the type representing a decoded Terraform module.
    [ProviderConfigs] holds its records by value: a [providerConfig] is
    never read or written through its pointer once stored. *)
Record decodedModule := {
  RequiredCore         : list string;
  ProviderRequirements : gmap string ptr;
  ProviderConfigs      : gmap string providerConfig;
  Resources            : gmap string ptr;
  DataSources          : gmap string ptr;
  ModuleSources        : gmap string ptr
}.

(** The cells the pointers of a [decodedModule] point into. *)
Record Memory := {
  requirementCells  : list providerRequirement;
  resourceCells     : list resource;
  dataSourceCells   : list dataSource;
  moduleSourceCells : list ModuleSource
}.

(** What a call of [loadModuleFromFile] can read and write: the
    accumulator behind the pointer [mod] and the records it points to. *)
Record State := { mem : Memory; acc : decodedModule }.

Definition newDecodedModule : decodedModule :=
  {| RequiredCore := [];
     ProviderRequirements := ∅;
     ProviderConfigs := ∅;
     Resources := ∅;
     DataSources := ∅;
     ModuleSources := ∅ |}.

Definition emptyMemory : Memory :=
  {| requirementCells := []; resourceCells := [];
     dataSourceCells := []; moduleSourceCells := [] |}.

(** The state right after [newDecodedModule()]. *)
Definition newState : State := {| mem := emptyMemory; acc := newDecodedModule |}.

(** *** Field updates *)

Definition set_RequiredCore (f : list string -> list string) (s : State) : State :=
  {| mem := mem s;
     acc := {| RequiredCore := f (RequiredCore (acc s));
               ProviderRequirements := ProviderRequirements (acc s);
               ProviderConfigs := ProviderConfigs (acc s);
               Resources := Resources (acc s);
               DataSources := DataSources (acc s);
               ModuleSources := ModuleSources (acc s) |} |}.

Definition set_ProviderRequirements (f : gmap string ptr -> gmap string ptr) (s : State) : State :=
  {| mem := mem s;
     acc := {| RequiredCore := RequiredCore (acc s);
               ProviderRequirements := f (ProviderRequirements (acc s));
               ProviderConfigs := ProviderConfigs (acc s);
               Resources := Resources (acc s);
               DataSources := DataSources (acc s);
               ModuleSources := ModuleSources (acc s) |} |}.

Definition set_ProviderConfigs
    (f : gmap string providerConfig -> gmap string providerConfig) (s : State) : State :=
  {| mem := mem s;
     acc := {| RequiredCore := RequiredCore (acc s);
               ProviderRequirements := ProviderRequirements (acc s);
               ProviderConfigs := f (ProviderConfigs (acc s));
               Resources := Resources (acc s);
               DataSources := DataSources (acc s);
               ModuleSources := ModuleSources (acc s) |} |}.

Definition set_Resources (f : gmap string ptr -> gmap string ptr) (s : State) : State :=
  {| mem := mem s;
     acc := {| RequiredCore := RequiredCore (acc s);
               ProviderRequirements := ProviderRequirements (acc s);
               ProviderConfigs := ProviderConfigs (acc s);
               Resources := f (Resources (acc s));
               DataSources := DataSources (acc s);
               ModuleSources := ModuleSources (acc s) |} |}.

Definition set_DataSources (f : gmap string ptr -> gmap string ptr) (s : State) : State :=
  {| mem := mem s;
     acc := {| RequiredCore := RequiredCore (acc s);
               ProviderRequirements := ProviderRequirements (acc s);
               ProviderConfigs := ProviderConfigs (acc s);
               Resources := Resources (acc s);
               DataSources := f (DataSources (acc s));
               ModuleSources := ModuleSources (acc s) |} |}.

Definition set_ModuleSources (f : gmap string ptr -> gmap string ptr) (s : State) : State :=
  {| mem := mem s;
     acc := {| RequiredCore := RequiredCore (acc s);
               ProviderRequirements := ProviderRequirements (acc s);
               ProviderConfigs := ProviderConfigs (acc s);
               Resources := Resources (acc s);
               DataSources := DataSources (acc s);
               ModuleSources := f (ModuleSources (acc s)) |} |}.

Definition set_requirementCells
    (f : list providerRequirement -> list providerRequirement) (s : State) : State :=
  {| mem := {| requirementCells := f (requirementCells (mem s));
               resourceCells := resourceCells (mem s);
               dataSourceCells := dataSourceCells (mem s);
               moduleSourceCells := moduleSourceCells (mem s) |};
     acc := acc s |}.

Definition set_resourceCells (f : list resource -> list resource) (s : State) : State :=
  {| mem := {| requirementCells := requirementCells (mem s);
               resourceCells := f (resourceCells (mem s));
               dataSourceCells := dataSourceCells (mem s);
               moduleSourceCells := moduleSourceCells (mem s) |};
     acc := acc s |}.

Definition set_dataSourceCells (f : list dataSource -> list dataSource) (s : State) : State :=
  {| mem := {| requirementCells := requirementCells (mem s);
               resourceCells := resourceCells (mem s);
               dataSourceCells := f (dataSourceCells (mem s));
               moduleSourceCells := moduleSourceCells (mem s) |};
     acc := acc s |}.

Definition set_moduleSourceCells (f : list ModuleSource -> list ModuleSource) (s : State) : State :=
  {| mem := {| requirementCells := requirementCells (mem s);
               resourceCells := resourceCells (mem s);
               dataSourceCells := dataSourceCells (mem s);
               moduleSourceCells := f (moduleSourceCells (mem s)) |};
     acc := acc s |}.

(** ** Collaborators

    What [load_module.go] uses and does not define: the schemas, the
    helper decoding a [required_providers] block and the [MapKey]
    methods of [resource] and [dataSource] (other files of the package),
    [hclsyntax.ParseTraversalAbs], the quoting of the [%q] verb, and the
    order in which [range] visits a map. *)
Class Collaborators := {
  rootSchema : BodySchema;
  terraformBlockSchema : BodySchema;
  providerConfigSchema : BodySchema;
  resourceSchema : BodySchema;
  moduleSchema : BodySchema;
  (** [hclsyntax.ParseTraversalAbs([]byte(s), "", hcl.Pos{})] *)
  ParseTraversalAbs : string -> Traversal * Diagnostics;
  (** The fragments are freshly allocated records, one per name; they are
      given by value and get their cell when the accumulator stores them. *)
  decodeRequiredProvidersBlock : Block -> gmap string providerRequirement * Diagnostics;
  resource_MapKey : resource -> string;
  dataSource_MapKey : dataSource -> string;
  (** [strconv.Quote], the rendering of [%q]. *)
  strconv_Quote : string -> string;
  (** The entries of a map in the order [for name, req := range reqs]
      visits them: some enumeration of the map, without repetition. *)
  rangeOrder : gmap string providerRequirement -> list (string * providerRequirement);
  rangeOrder_enumerates : forall m, rangeOrder m ≡ₚ map_to_list m
}.

(** ** The monad of the decoder: state and panics *)

Definition M (A : Type) : Type := State -> State * option A.

Definition ret {A} (a : A) : M A := fun s => (s, Some a).

Definition bind {A B} (m : M A) (k : A -> M B) : M B :=
  fun s => match m s with
           | (s', Some a) => k a s'
           | (s', None) => (s', None)
           end.

Definition panic {A} : M A := fun s => (s, None).

Definition gets {A} (f : State -> A) : M A := fun s => (s, Some (f s)).

Definition modify (f : State -> State) : M unit := fun s => (f s, Some tt).

(** A partial operation of Go: its failure is a panic. *)
Definition orPanic {A} (o : option A) : M A :=
  match o with Some a => ret a | None => panic end.

Declare Scope go_scope.
Delimit Scope go_scope with go.
Notation "x <- m ;; k" := (bind m (fun x => k))
  (at level 100, m at next level, right associativity) : go_scope.
Notation "m ;;; k" := (bind m (fun _ => k))
  (at level 100, right associativity) : go_scope.
Local Open Scope go_scope.

(** [for _, x := range l { b = f(b, x) }] *)
Fixpoint foldM {A B} (f : B -> A -> M B) (b : B) (l : list A) : M B :=
  match l with
  | [] => ret b
  | x :: l' => b' <- f b x ;; foldM f b' l'
  end.

(** [labels[i]] *)
Definition index (labels : list string) (i : nat) : M string := orPanic (labels !! i).

(** *** Cells *)

Definition new_requirement (r : providerRequirement) : M ptr :=
  fun s => (set_requirementCells (fun c => c ++ [r]) s,
            Some (length (requirementCells (mem s)))).

Definition new_resource (r : resource) : M ptr :=
  fun s => (set_resourceCells (fun c => c ++ [r]) s,
            Some (length (resourceCells (mem s)))).

Definition new_dataSource (d : dataSource) : M ptr :=
  fun s => (set_dataSourceCells (fun c => c ++ [d]) s,
            Some (length (dataSourceCells (mem s)))).

Definition new_moduleSource (m : ModuleSource) : M ptr :=
  fun s => (set_moduleSourceCells (fun c => c ++ [m]) s,
            Some (length (moduleSourceCells (mem s)))).

Definition load_resource (p : ptr) : M resource :=
  fun s => orPanic (resourceCells (mem s) !! p) s.

Definition load_dataSource (p : ptr) : M dataSource :=
  fun s => orPanic (dataSourceCells (mem s) !! p) s.

Definition load_moduleSource (p : ptr) : M ModuleSource :=
  fun s => orPanic (moduleSourceCells (mem s) !! p) s.

Definition store_resource (p : ptr) (f : resource -> resource) : M unit :=
  r <- load_resource p ;; modify (set_resourceCells <[p := f r]>).

Definition store_dataSource (p : ptr) (f : dataSource -> dataSource) : M unit :=
  d <- load_dataSource p ;; modify (set_dataSourceCells <[p := f d]>).

Definition store_moduleSource (p : ptr) (f : ModuleSource -> ModuleSource) : M unit :=
  m <- load_moduleSource p ;; modify (set_moduleSourceCells <[p := f m]>).

(** [mod.ProviderRequirements[name]] followed by a field access: the
    pointer found in the map (nil when the key is missing) and the record
    behind it. *)
Definition requirementAt (name : string) : M (ptr * providerRequirement) :=
  fun s =>
    orPanic (p ← ProviderRequirements (acc s) !! name;
             r ← requirementCells (mem s) !! p;
             Some (p, r)) s.

(** [mod.ProviderRequirements[name].F = v] *)
Definition update_requirementAt (name : string)
    (f : providerRequirement -> providerRequirement) : M unit :=
  pr <- requirementAt name ;;
  modify (set_requirementCells <[pr.1 := f pr.2]>).

(** ** [decodeProviderAttribute] *)

Definition invalidProviderReference (attr : Attribute) : Diagnostic :=
  {| Severity := DiagError;
     Summary  := "Invalid provider reference";
     Detail   := "Provider argument requires a provider name followed by an optional alias, like "
                 +:+ String "034"%char "aws.foo" +:+ String "034"%char ".";
     Subject  := Some (Expression_Range (Expr attr));
     Context  := None |}.

(** Modelled from the spec: [inferProviderNameFromType] is defined in a
    file of the package other than [load_module.go].  Given a resource or
    data-source type string it returns the substring preceding its first
    [_] character, or the full string if no [_] is present. *)
Fixpoint inferProviderNameFromType (typeName : string) : string :=
  match typeName with
  | EmptyString => EmptyString
  | String c rest =>
      if Ascii.eqb c "_"%char then EmptyString
      else String c (inferProviderNameFromType rest)
  end.

Section Decoder.
Context `{Collaborators}.

(** The value of the variable [traversal] when control reaches the test
    [len(traversal) > 0]. *)
Definition providerTraversal (attr : Attribute) : Traversal :=
  let '(traversal, travDiags) := AbsTraversalForExpr (Expr attr) in
  if HasErrors travDiags then
    (* traversal = nil, in case we got any partial results *)
    let '(travStr, valDiags) := DecodeExpression (Expr attr) in
    if negb (HasErrors valDiags) then
      let '(traversal, strDiags) := ParseTraversalAbs travStr in
      if HasErrors strDiags then [] else traversal
    else []
  else traversal.

(** [None] is the panic of [RootName]. *)
Definition decodeProviderAttribute (attr : Attribute) : option (ProviderRef * Diagnostics) :=
  let diags : Diagnostics := [] in
  let traversal := providerTraversal attr in
  if decide (0 < length traversal) then
    providerName ← RootName traversal;
    let alias :=
      if decide (1 < length traversal) then
        match traversal !! 1 with
        | Some (TraverseAttr name _) => name
        | _ => ""
        end
      else "" in
    Some ({| LocalName := providerName; ProviderRef_Alias := alias |}, diags)
  else
    Some ({| LocalName := ""; ProviderRef_Alias := "" |},
          [invalidProviderReference attr]).

(** ** [loadModuleFromFile] *)

Definition multipleProviderSources (innerBlock : Block) (name source reqSource : string)
    : Diagnostic :=
  {| Severity := DiagError;
     Summary  := "Multiple provider source attributes";
     Detail   := "Found multiple source attributes for provider " +:+ name +:+ ": "
                 +:+ strconv_Quote source +:+ ", " +:+ strconv_Quote reqSource;
     Subject  := Some (DefRange innerBlock);
     Context  := None |}.

Definition with_Source (source : string) (r : providerRequirement) : providerRequirement :=
  {| providerRequirement_Source := source; VersionConstraints := VersionConstraints r |}.

Definition with_VersionConstraints (vs : list string) (r : providerRequirement)
    : providerRequirement :=
  {| providerRequirement_Source := providerRequirement_Source r;
     VersionConstraints := vs |}.

(** The statement [mod.ProviderRequirements[name].VersionConstraints =
    append(mod.ProviderRequirements[name].VersionConstraints, vs...)]. *)
Definition append_VersionConstraints (name : string) (vs : list string) : M unit :=
  pr <- requirementAt name ;;
  update_requirementAt name (with_VersionConstraints (VersionConstraints pr.2 ++ vs)).

(** The body of [for name, req := range reqs]. *)
Definition mergeRequirement (innerBlock : Block) (diags : Diagnostics)
    (entry : string * providerRequirement) : M Diagnostics :=
  let '(name, req) := entry in
  reqs <- gets (fun s => ProviderRequirements (acc s)) ;;
  match reqs !! name with
  | None =>
      p <- new_requirement req ;;
      modify (set_ProviderRequirements <[name := p]>) ;;;
      ret diags
  | Some _ =>
      diags <-
        (if decide (providerRequirement_Source req <> "") then
           pr <- requirementAt name ;;
           let source := providerRequirement_Source pr.2 in
           if decide (source <> "" /\ source <> providerRequirement_Source req) then
             ret (diags ++ [multipleProviderSources innerBlock name source
                              (providerRequirement_Source req)])
           else
             update_requirementAt name (with_Source (providerRequirement_Source req)) ;;;
             ret diags
         else ret diags) ;;
      append_VersionConstraints name (VersionConstraints req) ;;;
      ret diags
  end.

(** The body of [for _, innerBlock := range content.Blocks]. *)
Definition loadInnerBlock (diags : Diagnostics) (innerBlock : Block) : M Diagnostics :=
  if decide (Block_Type innerBlock = "required_providers") then
    let '(reqs, reqsDiags) := decodeRequiredProvidersBlock innerBlock in
    let diags := diags ++ reqsDiags in
    foldM (mergeRequirement innerBlock) diags (rangeOrder reqs)
  else ret diags.

Definition terraformCase (block : Block) (diags : Diagnostics) : M Diagnostics :=
  let '(content, contentDiags) := PartialContent (Block_Body block) terraformBlockSchema in
  let diags := diags ++ contentDiags in
  diags <-
    match Attributes content !! "required_version" with
    | Some attr =>
        let '(version, valDiags) := DecodeExpression (Expr attr) in
        let diags := diags ++ valDiags in
        if negb (HasErrors valDiags) then
          modify (set_RequiredCore (fun c => c ++ [version])) ;;; ret diags
        else ret diags
    | None => ret diags
    end ;;
  foldM loadInnerBlock diags (Blocks content).

Definition providerCase (block : Block) (diags : Diagnostics) : M Diagnostics :=
  let '(content, contentDiags) := PartialContent (Block_Body block) providerConfigSchema in
  let diags := diags ++ contentDiags in
  name <- index (Labels block) 0 ;;
  (* Even if there isn't an explicit version required, we still
     need an entry in our map to signal the unversioned dependency. *)
  reqs <- gets (fun s => ProviderRequirements (acc s)) ;;
  match reqs !! name with
  | None =>
      p <- new_requirement {| providerRequirement_Source := ""; VersionConstraints := [] |} ;;
      modify (set_ProviderRequirements <[name := p]>)
  | Some _ => ret tt
  end ;;;
  diags <-
    match Attributes content !! "version" with
    | Some attr =>
        let '(version, valDiags) := DecodeExpression (Expr attr) in
        let diags := diags ++ valDiags in
        if negb (HasErrors valDiags) then
          append_VersionConstraints name [version] ;;;
          ret diags
        else ret diags
    | None => ret diags
    end ;;
  let '(providerKey, alias, diags) :=
    match Attributes content !! "alias" with
    | Some attr =>
        let '(alias, valDiags) := DecodeExpression (Expr attr) in
        let diags := diags ++ valDiags in
        if negb (HasErrors valDiags) && negb (bool_decide (alias = "")) then
          (name +:+ "." +:+ alias, alias, diags)
        else (name, alias, diags)
    | None => (name, "", diags)
    end in
  modify (set_ProviderConfigs
            <[providerKey := {| providerConfig_Name := name;
                                providerConfig_Alias := alias |}]>) ;;;
  ret diags.

Definition zeroProviderRef : ProviderRef := {| LocalName := ""; ProviderRef_Alias := "" |}.

Definition dataSource_with_Provider (ref : ProviderRef) (d : dataSource) : dataSource :=
  {| dataSource_Type := dataSource_Type d;
     dataSource_Name := dataSource_Name d;
     dataSource_Provider := ref |}.

Definition resource_with_Provider (ref : ProviderRef) (r : resource) : resource :=
  {| resource_Type := resource_Type r;
     resource_Name := resource_Name r;
     resource_Provider := ref |}.

Definition ModuleSource_with_Source (source : string) (m : ModuleSource) : ModuleSource :=
  {| ModuleSource_Source := source; ModuleSource_Name := ModuleSource_Name m |}.

Definition dataCase (block : Block) (diags : Diagnostics) : M Diagnostics :=
  let '(content, contentDiags) := PartialContent (Block_Body block) resourceSchema in
  let diags := diags ++ contentDiags in
  ty <- index (Labels block) 0 ;;
  nm <- index (Labels block) 1 ;;
  ds <- new_dataSource {| dataSource_Type := ty; dataSource_Name := nm;
                          dataSource_Provider := zeroProviderRef |} ;;
  d <- load_dataSource ds ;;
  modify (set_DataSources <[dataSource_MapKey d := ds]>) ;;;
  match Attributes content !! "provider" with
  | Some attr =>
      res <- orPanic (decodeProviderAttribute attr) ;;
      let '(ref, aDiags) := res in
      let diags := diags ++ aDiags in
      store_dataSource ds (dataSource_with_Provider ref) ;;;
      ret diags
  | None =>
      (* If provider _isn't_ set then we'll infer it from the
         datasource type. *)
      d <- load_dataSource ds ;;
      store_dataSource ds
        (dataSource_with_Provider
           {| LocalName := inferProviderNameFromType (dataSource_Type d);
              ProviderRef_Alias := "" |}) ;;;
      ret diags
  end.

Definition resourceCase (block : Block) (diags : Diagnostics) : M Diagnostics :=
  let '(content, contentDiags) := PartialContent (Block_Body block) resourceSchema in
  let diags := diags ++ contentDiags in
  ty <- index (Labels block) 0 ;;
  nm <- index (Labels block) 1 ;;
  r <- new_resource {| resource_Type := ty; resource_Name := nm;
                       resource_Provider := zeroProviderRef |} ;;
  r0 <- load_resource r ;;
  modify (set_Resources <[resource_MapKey r0 := r]>) ;;;
  match Attributes content !! "provider" with
  | Some attr =>
      res <- orPanic (decodeProviderAttribute attr) ;;
      let '(ref, aDiags) := res in
      let diags := diags ++ aDiags in
      store_resource r (resource_with_Provider ref) ;;;
      ret diags
  | None =>
      (* If provider _isn't_ set then we'll infer it from the
         resource type. *)
      r0 <- load_resource r ;;
      store_resource r
        (resource_with_Provider
           {| LocalName := inferProviderNameFromType (resource_Type r0);
              ProviderRef_Alias := "" |}) ;;;
      ret diags
  end.

Definition moduleCase (block : Block) (diags : Diagnostics) : M Diagnostics :=
  let '(content, contentDiags) := PartialContent (Block_Body block) moduleSchema in
  let diags := diags ++ contentDiags in
  name <- index (Labels block) 0 ;;
  ms <- new_moduleSource {| ModuleSource_Source := ""; ModuleSource_Name := name |} ;;
  m <- load_moduleSource ms ;;
  modify (set_ModuleSources <[ModuleSource_MapKey m := ms]>) ;;;
  match Attributes content !! "source" with
  | Some attr =>
      (* decodeModuleAttribute *)
      let '(source, valDiags) := DecodeExpression (Expr attr) in
      store_moduleSource ms (ModuleSource_with_Source source) ;;;
      ret (diags ++ valDiags)
  | None => ret diags
  end.

(** The body of [for _, block := range content.Blocks]: the [switch]. *)
Definition loadBlock (diags : Diagnostics) (block : Block) : M Diagnostics :=
  if decide (Block_Type block = "terraform") then terraformCase block diags
  else if decide (Block_Type block = "provider") then providerCase block diags
  else if decide (Block_Type block = "data") then dataCase block diags
  else if decide (Block_Type block = "resource") then resourceCase block diags
  else if decide (Block_Type block = "module") then moduleCase block diags
  else ret diags.

(** [loadModuleFromFile] reads given file, interprets it and stores in
    given Module. *)
Definition loadModuleFromFile (file : File) : M Diagnostics :=
  let diags : Diagnostics := [] in
  let '(content, contentDiags) := PartialContent (File_Body file) rootSchema in
  let diags := diags ++ contentDiags in
  foldM loadBlock diags (Blocks content).

(** Successive calls on the files of one module, sharing the accumulator;
    the diagnostics of each call, in order. *)
Fixpoint loadModuleFromFiles (files : list File) : M (list Diagnostics) :=
  match files with
  | [] => ret []
  | file :: rest =>
      diags <- loadModuleFromFile file ;;
      more <- loadModuleFromFiles rest ;;
      ret (diags :: more)
  end.

End Decoder.

(** ** Notions of the specification *)

Section Notions.
Context `{Collaborators}.

(** The first decode strategy of the Reference Resolver: the expression
    read as an absolute traversal. *)
Definition bareTraversalAttempt (e : Expression) : option Traversal :=
  let '(traversal, travDiags) := AbsTraversalForExpr e in
  if HasErrors travDiags then None else Some traversal.

(** The second strategy: the expression decoded as a literal string and
    that string parsed again as an absolute traversal. *)
Definition literalStringAttempt (e : Expression) : option Traversal :=
  let '(travStr, valDiags) := DecodeExpression e in
  if HasErrors valDiags then None
  else
    let '(traversal, strDiags) := ParseTraversalAbs travStr in
    if HasErrors strDiags then None else Some traversal.

(** The provider reference a [resource] or [data] declaration of the
    given type gets, with the diagnostics of its resolution: resolved from
    the [provider] attribute when there is one, inferred from the type
    otherwise.  [None] when the resolution panics. *)
Definition declaredProvider (content : BodyContent) (type : string)
    : option (ProviderRef * Diagnostics) :=
  match Attributes content !! "provider" with
  | Some attr => decodeProviderAttribute attr
  | None => Some ({| LocalName := inferProviderNameFromType type;
                     ProviderRef_Alias := "" |}, [])
  end.

(** The source a [module] declaration gets, with the diagnostics of its
    decoding: the content of the target of [DecodeExpression] when there is
    a [source] attribute, the empty string otherwise. *)
Definition declaredSource (content : BodyContent) : string * Diagnostics :=
  match Attributes content !! "source" with
  | Some attr => DecodeExpression (Expr attr)
  | None => ("", [])
  end.

(** A block as the schema filter returns it: with the labels its kind
    has, and with a [provider] attribute, if any, that gives no traversal
    or an absolute one. *)
Definition wellShaped (block : Block) : Prop :=
  (Block_Type block = "provider" \/ Block_Type block = "module" ->
   is_Some (Labels block !! 0)) /\
  (Block_Type block = "data" \/ Block_Type block = "resource" ->
   is_Some (Labels block !! 0) /\ is_Some (Labels block !! 1) /\
   forall attr,
     Attributes (PartialContent (Block_Body block) resourceSchema).1 !! "provider"
       = Some attr ->
     providerTraversal attr = [] \/ is_Some (RootName (providerTraversal attr))).

(** The [required_version] a top-level block declares as a static literal
    string, if any. *)
Definition blockRequiredVersion (block : Block) : list string :=
  if decide (Block_Type block = "terraform") then
    match Attributes (PartialContent (Block_Body block) terraformBlockSchema).1
            !! "required_version" with
    | Some attr =>
        if HasErrors (DecodeExpression (Expr attr)).2 then []
        else [(DecodeExpression (Expr attr)).1]
    | None => []
    end
  else [].

(** The versions a file declares, in the order of its blocks. *)
Definition fileRequiredVersions (file : File) : list string :=
  flat_map blockRequiredVersion (Blocks (PartialContent (File_Body file) rootSchema).1).

End Notions.

(** [occurs c s]: the character [c] occurs in the string [s]. *)
Fixpoint occurs (c : ascii) (s : string) : Prop :=
  match s with
  | EmptyString => False
  | String c' rest => c = c' \/ occurs c rest
  end.

(** [grows s s']: from [s] to [s'] nothing was taken away.  The required
    core versions were extended; every provider requirement kept its
    pointer; the other maps kept their keys; and every requirement record
    kept its cell, with its version constraints extended. *)
Definition grows (s s' : State) : Prop :=
  RequiredCore (acc s) `prefix_of` RequiredCore (acc s') /\
  ProviderRequirements (acc s) ⊆ ProviderRequirements (acc s') /\
  dom (ProviderConfigs (acc s)) ⊆ dom (ProviderConfigs (acc s')) /\
  dom (Resources (acc s)) ⊆ dom (Resources (acc s')) /\
  dom (DataSources (acc s)) ⊆ dom (DataSources (acc s')) /\
  dom (ModuleSources (acc s)) ⊆ dom (ModuleSources (acc s')) /\
  (forall p r, requirementCells (mem s) !! p = Some r ->
     exists r', requirementCells (mem s') !! p = Some r' /\
                VersionConstraints r `prefix_of` VersionConstraints r').

(** The accumulators the decoder builds: every pointer of the
    requirements map has its cell. *)
Definition wellFormed (s : State) : Prop :=
  forall name p,
    ProviderRequirements (acc s) !! name = Some p ->
    p < length (requirementCells (mem s)).

(** [returns P m]: from a state with [P], [m] returns (it does not panic)
    in a state with [P]. *)
Definition returns {A} (P : State -> Prop) (m : M A) : Prop :=
  forall s, P s -> is_Some (m s).2 /\ P (m s).1.

(** [extends diags m]: the diagnostics [m] returns start with [diags]. *)
Definition extends (diags : Diagnostics) (m : M Diagnostics) : Prop :=
  forall s s' diags', m s = (s', Some diags') -> diags `prefix_of` diags'.

(** [sameRequiredCore s s']: the step from [s] to [s'] left the required
    core versions as they were. *)
Definition sameRequiredCore (s s' : State) : Prop :=
  RequiredCore (acc s') = RequiredCore (acc s).

(** [preserves R m]: whatever the state [m] starts in and however it ends
    (a result or a panic), the state it ends in is related to the start. *)
Definition preserves {A} (R : State -> State -> Prop) (m : M A) : Prop :=
  forall s, R s (m s).1.

(** The records retrievable from the accumulator under a key: the
    pointer found in the map, dereferenced. *)
Definition requirementOf (s : State) (name : string) : option providerRequirement :=
  p ← ProviderRequirements (acc s) !! name; requirementCells (mem s) !! p.

Definition resourceOf (s : State) (key : string) : option resource :=
  p ← Resources (acc s) !! key; resourceCells (mem s) !! p.

Definition dataSourceOf (s : State) (key : string) : option dataSource :=
  p ← DataSources (acc s) !! key; dataSourceCells (mem s) !! p.

Definition moduleSourceOf (s : State) (key : string) : option ModuleSource :=
  p ← ModuleSources (acc s) !! key; moduleSourceCells (mem s) !! p.

(** The attribute name of a step, when the step is an attribute access. *)
Definition attrName (step : option Traverser) : string :=
  match step with
  | Some (TraverseAttr name _) => name
  | _ => ""
  end.

(** [dotted ["aws"; "east"] = "aws.east"] *)
Definition dotted (names : list string) : string := String.concat "." names.

Fixpoint attrSteps (names : list string) (t : Traversal) : Prop :=
  match names, t with
  | [], [] => True
  | n :: names', TraverseAttr n' _ :: t' => n = n' /\ attrSteps names' t'
  | _, _ => False
  end.

(** [spells names t]: the traversal [t] is the root [names[0]] followed by
    one attribute access per further name, whatever the source ranges. *)
Definition spells (names : list string) (t : Traversal) : Prop :=
  match names, t with
  | n :: names', TraverseRoot n' _ :: t' => n = n' /\ attrSteps names' t'
  | _, _ => False
  end.

(** ** A concrete set of collaborators, for the examples *)

Module Example.

Definition noPos : Pos := {| Line := 0; Column := 0; Byte := 0 |}.
Definition noRange : Range := {| Filename := ""; Start := noPos; End_ := noPos |}.

Definition at_line (file : string) (n : Z) : Range :=
  {| Filename := file;
     Start := {| Line := n; Column := 1; Byte := 0 |};
     End_ := {| Line := n; Column := 1; Byte := 0 |} |}.

Definition error (summary : string) (rng : Range) : Diagnostic :=
  {| Severity := DiagError; Summary := summary; Detail := "";
     Subject := Some rng; Context := None |}.

Fixpoint splitOnDot (s : string) : list string :=
  match s with
  | EmptyString => [EmptyString]
  | String c rest =>
      let segs := splitOnDot rest in
      if Ascii.eqb c "."%char then EmptyString :: segs
      else match segs with
           | seg :: more => String c seg :: more
           | [] => [String c EmptyString]
           end
  end.

Definition segmentsTraversal (segs : list string) : Traversal :=
  match segs with
  | [] => []
  | root :: attrs =>
      TraverseRoot root noRange :: map (fun a => TraverseAttr a noRange) attrs
  end.

Definition isLetter (c : ascii) : bool :=
  let n := nat_of_ascii c in
  ((65 <=? n) && (n <=? 90) || (97 <=? n) && (n <=? 122) || (n =? 95))%nat.

Definition startsLikeIdentifier (seg : string) : bool :=
  match seg with
  | String c _ => isLetter c
  | EmptyString => false
  end.

(** A parser of dotted names standing for [hclsyntax.ParseTraversalAbs]:
    every segment between dots must start like an identifier. *)
Definition parseDotted (s : string) : Traversal * Diagnostics :=
  let segs := splitOnDot s in
  if forallb startsLikeIdentifier segs
  then (segmentsTraversal segs, [])
  else ([], [error "Invalid character" noRange]).

Definition schema (attrs : list string) (blocks : list (string * list string)) : BodySchema :=
  {| BodySchema_Attributes :=
       map (fun a => {| AttributeSchema_Name := a; Required := false |}) attrs;
     BodySchema_Blocks :=
       map (fun b => {| BlockHeaderSchema_Type := b.1; LabelNames := b.2 |}) blocks |}.

#[global] Instance collaborators : Collaborators := {|
  rootSchema :=
    schema [] [("terraform", []); ("provider", ["name"]); ("data", ["type"; "name"]);
               ("resource", ["type"; "name"]); ("module", ["name"])];
  terraformBlockSchema := schema ["required_version"] [("required_providers", [])];
  providerConfigSchema := schema ["version"; "alias"] [];
  resourceSchema := schema ["provider"] [];
  moduleSchema := schema ["source"] [];
  ParseTraversalAbs := parseDotted;
  decodeRequiredProvidersBlock := fun _ => (∅, []);
  resource_MapKey := fun r => resource_Type r +:+ "." +:+ resource_Name r;
  dataSource_MapKey := fun d => "data." +:+ dataSource_Type d +:+ "." +:+ dataSource_Name d;
  strconv_Quote := fun s => String "034"%char s +:+ String "034"%char EmptyString;
  rangeOrder := map_to_list;
  rangeOrder_enumerates := fun m => Permutation_refl (map_to_list m)
|}.

(** The expression [aws.east], written bare. *)
Definition bare_aws_east : Attribute :=
  {| Attribute_Name := "provider";
     Expr := {| Expression_Range := at_line "main.tf" 3;
                AbsTraversalForExpr :=
                  ([TraverseRoot "aws" (at_line "main.tf" 3);
                    TraverseAttr "east" (at_line "main.tf" 3)], []);
                DecodeExpression :=
                  ("", [error "Variables not allowed" (at_line "main.tf" 3)]) |} |}.

(** The same reference in the legacy quoted form. *)
Definition quoted_aws_east : Attribute :=
  {| Attribute_Name := "provider";
     Expr := {| Expression_Range := at_line "main.tf" 7;
                AbsTraversalForExpr :=
                  ([], [error "Invalid expression" (at_line "main.tf" 7)]);
                DecodeExpression := ("aws.east", []) |} |}.

(** A number literal, [5]: no traversal, and the string it converts to
    does not parse as one. *)
Definition number_literal : Attribute :=
  {| Attribute_Name := "provider";
     Expr := {| Expression_Range := at_line "main.tf" 9;
                AbsTraversalForExpr :=
                  ([], [error "Invalid expression" (at_line "main.tf" 9)]);
                DecodeExpression := ("5", []) |} |}.

(** A body given by its attributes and nested blocks; [PartialContent]
    keeps what the schema names and reports nothing. *)
Definition named (names : list string) (name : string) : bool :=
  existsb (String.eqb name) names.

Definition body (attrs : list (string * Expression)) (blocks : list Block) : Body :=
  MkBody (fun schema =>
    let attrNames := map AttributeSchema_Name (BodySchema_Attributes schema) in
    let blockTypes := map BlockHeaderSchema_Type (BodySchema_Blocks schema) in
    ({| Attributes :=
          list_to_map
            (map (fun a => (a.1, {| Attribute_Name := a.1; Expr := a.2 |}))
                 (List.filter (fun a => named attrNames a.1) attrs));
        Blocks := List.filter (fun b => named blockTypes (Block_Type b)) blocks |},
     [])).

Definition block (type : string) (labels : list string) (b : Body) (line : Z) : Block :=
  {| Block_Type := type; Labels := labels; Block_Body := b;
     DefRange := at_line "main.tf" line |}.

(** A literal string, as an expression. *)
Definition literal (value : string) (line : Z) : Expression :=
  {| Expression_Range := at_line "main.tf" line;
     AbsTraversalForExpr := ([], [error "Invalid expression" (at_line "main.tf" line)]);
     DecodeExpression := (value, []) |}.

(** A reference to a variable where a literal is required: the decoding
    fails and leaves its target alone. *)
Definition variable (name : string) (line : Z) : Expression :=
  {| Expression_Range := at_line "main.tf" line;
     AbsTraversalForExpr := ([TraverseRoot "var" (at_line "main.tf" line);
                              TraverseAttr name (at_line "main.tf" line)], []);
     DecodeExpression := ("", [error "Variables not allowed" (at_line "main.tf" line)]) |}.

(** [terraform { required_version = ">= 0.12" }], in a file of its own. *)
Definition versions_tf : File :=
  {| File_Body :=
       body [] [block "terraform" []
                  (body [("required_version", literal ">= 0.12" 2)] []) 1] |}.

(** A [terraform] block whose [required_version] is not a literal. *)
Definition terraform_var_version : Block :=
  block "terraform" [] (body [("required_version", variable "tf_version" 2)] []) 1.

(** A file with the same required version again, a version that is not a
    literal, and a second literal. *)
Definition main_tf : File :=
  {| File_Body :=
       body [] [block "terraform" []
                  (body [("required_version", literal ">= 0.12" 2)] []) 1;
                terraform_var_version;
                block "terraform" []
                  (body [("required_version", literal "< 2.0" 8)] []) 7] |}.

(** [resource "aws_instance" "web" { provider = aws.east }] *)
Definition web_in_east : Block :=
  block "resource" ["aws_instance"; "web"]
    (body [("provider", Expr bare_aws_east)] []) 10.

(** [resource "aws_instance" "web" {}] *)
Definition web_plain : Block :=
  block "resource" ["aws_instance"; "web"] (body [] []) 20.

(** [data "aws_ami" "ubuntu" { provider = "aws.east" }] and the same
    declaration without a provider. *)
Definition ubuntu_in_east : Block :=
  block "data" ["aws_ami"; "ubuntu"]
    (body [("provider", Expr quoted_aws_east)] []) 30.

Definition ubuntu_plain : Block :=
  block "data" ["aws_ami"; "ubuntu"] (body [] []) 40.

(** [module "vpc" { source = "./vpc" }], [module "vpc" { source = var.src }]
    and [module "vpc" {}]. *)
Definition vpc_local : Block :=
  block "module" ["vpc"] (body [("source", literal "./vpc" 51)] []) 50.

Definition vpc_variable : Block :=
  block "module" ["vpc"] (body [("source", variable "src" 61)] []) 60.

Definition vpc_plain : Block := block "module" ["vpc"] (body [] []) 70.

(** An accumulator that requires provider [aws] from [hashicorp/aws]. *)
Definition requires_hashicorp_aws : State :=
  {| mem := {| requirementCells :=
                 [{| providerRequirement_Source := "hashicorp/aws";
                     VersionConstraints := [">= 2.0"] |}];
               resourceCells := []; dataSourceCells := []; moduleSourceCells := [] |};
     acc := {| RequiredCore := [];
               ProviderRequirements := {[ "aws" := 0 ]};
               ProviderConfigs := ∅; Resources := ∅; DataSources := ∅;
               ModuleSources := ∅ |} |}.

Definition required_providers_block : Block := block "required_providers" [] (body [] []) 2.

End Example.

(** * Properties *)

(** ** The Reference Resolver *)

Section Resolver.
Context `{Collaborators}.

Lemma providerTraversal_bare attr t :
  bareTraversalAttempt (Expr attr) = Some t -> providerTraversal attr = t.
Proof.
  unfold bareTraversalAttempt, providerTraversal.
  destruct (AbsTraversalForExpr (Expr attr)) as [t0 ds].
  destruct (HasErrors ds); congruence.
Qed.

Lemma providerTraversal_literal attr t :
  bareTraversalAttempt (Expr attr) = None ->
  literalStringAttempt (Expr attr) = Some t ->
  providerTraversal attr = t.
Proof.
  unfold bareTraversalAttempt, literalStringAttempt, providerTraversal.
  destruct (AbsTraversalForExpr (Expr attr)) as [t0 ds].
  destruct (HasErrors ds); [intros _ | discriminate].
  destruct (DecodeExpression (Expr attr)) as [str vd].
  destruct (HasErrors vd); [discriminate |]. simpl.
  destruct (ParseTraversalAbs str) as [t1 sd].
  destruct (HasErrors sd); congruence.
Qed.

Lemma providerTraversal_none attr :
  bareTraversalAttempt (Expr attr) = None ->
  literalStringAttempt (Expr attr) = None ->
  providerTraversal attr = [].
Proof.
  unfold bareTraversalAttempt, literalStringAttempt, providerTraversal.
  destruct (AbsTraversalForExpr (Expr attr)) as [t0 ds].
  destruct (HasErrors ds); [intros _ | discriminate].
  destruct (DecodeExpression (Expr attr)) as [str vd].
  destruct (HasErrors vd); [reflexivity |]. simpl.
  destruct (ParseTraversalAbs str) as [t1 sd].
  destruct (HasErrors sd); [reflexivity | discriminate].
Qed.

(** What [decodeProviderAttribute] makes of a traversal that starts with
    a root step. *)
Lemma decodeProviderAttribute_rooted attr name rng rest :
  providerTraversal attr = TraverseRoot name rng :: rest ->
  decodeProviderAttribute attr =
    Some ({| LocalName := name; ProviderRef_Alias := attrName (head rest) |}, []).
Proof.
  intros Ht. unfold decodeProviderAttribute. rewrite Ht. simpl.
  destruct rest as [| step rest']; reflexivity.
Qed.

Lemma decodeProviderAttribute_empty attr :
  providerTraversal attr = [] ->
  decodeProviderAttribute attr =
    Some ({| LocalName := ""; ProviderRef_Alias := "" |}, [invalidProviderReference attr]).
Proof.
  intros Ht. unfold decodeProviderAttribute. rewrite Ht. reflexivity.
Qed.

Lemma spells_rooted names t :
  spells names t ->
  exists name rng rest,
    t = TraverseRoot name rng :: rest /\ head names = Some name /\
    attrName (head rest) = default "" (names !! 1).
Proof.
  destruct names as [| n names']; [contradiction |].
  destruct t as [| [n' r | | |] t']; try contradiction.
  simpl. intros [-> Hrest]. exists n', r, t'. split; [reflexivity |]. split; [reflexivity |].
  destruct names' as [| a names'']; destruct t' as [| [| a' r' | |] t'']; simpl in *;
    try contradiction; try reflexivity.
  destruct Hrest as [-> _]. reflexivity.
Qed.

(** C3. For every dot-separated reference string [dotted names]: when
    the bare form of the reference is read by the first strategy as a
    traversal spelling [names], and the quoted form is refused by the first
    strategy, decodes to the string, and the string parses to a traversal
    spelling [names] (source ranges may differ), then resolving the quoted
    attribute gives the same [ProviderRef] and the same diagnostics (none)
    as resolving the bare attribute: local name [names[0]], alias
    [names[1]] or empty. *)
Theorem quoted_reference_resolves_like_bare
    (names : list string) (bare quoted : Attribute) (tb tq : Traversal)
    (valDiags strDiags : Diagnostics) :
  bareTraversalAttempt (Expr bare) = Some tb ->
  spells names tb ->
  bareTraversalAttempt (Expr quoted) = None ->
  DecodeExpression (Expr quoted) = (dotted names, valDiags) ->
  HasErrors valDiags = false ->
  ParseTraversalAbs (dotted names) = (tq, strDiags) ->
  HasErrors strDiags = false ->
  spells names tq ->
  decodeProviderAttribute quoted = decodeProviderAttribute bare /\
  decodeProviderAttribute bare =
    Some ({| LocalName := default "" (head names);
             ProviderRef_Alias := default "" (names !! 1) |}, []).
Proof.
  intros Hb Hsb Hq1 Hdec Hval Hparse Hstr Hsq.
  assert (Hq : providerTraversal quoted = tq).
  { apply providerTraversal_literal; [exact Hq1 |].
    unfold literalStringAttempt. rewrite Hdec, Hval, Hparse, Hstr. reflexivity. }
  apply providerTraversal_bare in Hb.
  destruct (spells_rooted _ _ Hsb) as (nb & rb & restb & -> & Hnb & Hab).
  destruct (spells_rooted _ _ Hsq) as (nq & rq & restq & -> & Hnq & Haq).
  rewrite (decodeProviderAttribute_rooted _ _ _ _ Hb).
  rewrite (decodeProviderAttribute_rooted _ _ _ _ Hq).
  rewrite Hab, Haq. rewrite Hnb in Hnq. injection Hnq as <-.
  rewrite Hnb. split; reflexivity.
Qed.

(** C4. When neither the bare-traversal attempt nor, after its failure,
    the literal-string attempt obtains a traversal of length at least 1,
    [decodeProviderAttribute] returns the zero-value [ProviderRef] and
    exactly one diagnostic: an error with summary "Invalid provider
    reference" whose subject is the range of the attribute's expression. *)
Theorem no_traversal_invalid_provider_reference (attr : Attribute) :
  (forall t, bareTraversalAttempt (Expr attr) = Some t -> length t = 0) ->
  (bareTraversalAttempt (Expr attr) = None ->
   forall t, literalStringAttempt (Expr attr) = Some t -> length t = 0) ->
  exists d,
    decodeProviderAttribute attr =
      Some ({| LocalName := ""; ProviderRef_Alias := "" |}, [d]) /\
    Severity d = DiagError /\
    Summary d = "Invalid provider reference" /\
    Subject d = Some (Expression_Range (Expr attr)).
Proof.
  intros H1 H2. exists (invalidProviderReference attr).
  split; [| repeat split].
  apply decodeProviderAttribute_empty.
  destruct (bareTraversalAttempt (Expr attr)) as [t |] eqn:Hb.
  - rewrite (providerTraversal_bare _ _ Hb).
    apply length_zero_iff_nil. apply H1. reflexivity.
  - destruct (literalStringAttempt (Expr attr)) as [t |] eqn:Hl.
    + rewrite (providerTraversal_literal _ _ Hb Hl).
      apply length_zero_iff_nil. apply (H2 eq_refl). reflexivity.
    + apply providerTraversal_none; assumption.
Qed.

(** C5. When the bare-traversal attempt or, after its failure, the
    literal-string attempt obtains a traversal of length at least 1, whose
    first segment is the root step [name], [decodeProviderAttribute]
    returns no diagnostic and the [ProviderRef] with local name [name] and
    with alias the name of the second segment if that segment exists and
    is an attribute access, the empty string otherwise. *)
Theorem traversal_gives_provider_reference
    (attr : Attribute) (t : Traversal) (name : string) (rng : Range) :
  bareTraversalAttempt (Expr attr) = Some t \/
  (bareTraversalAttempt (Expr attr) = None /\ literalStringAttempt (Expr attr) = Some t) ->
  1 <= length t ->
  head t = Some (TraverseRoot name rng) ->
  decodeProviderAttribute attr =
    Some ({| LocalName := name;
             ProviderRef_Alias :=
               match t !! 1 with
               | Some (TraverseAttr alias _) => alias
               | _ => ""
               end |}, []).
Proof.
  intros Hobt _ Hhead.
  assert (Ht : providerTraversal attr = t).
  { destruct Hobt as [Hb | [Hb Hl]].
    - apply providerTraversal_bare, Hb.
    - apply providerTraversal_literal; assumption. }
  destruct t as [| step rest]; [discriminate |].
  simpl in Hhead. injection Hhead as ->.
  rewrite (decodeProviderAttribute_rooted _ _ _ _ Ht).
  destruct rest as [| [| | |] rest']; reflexivity.
Qed.

End Resolver.

(** C3 on an example: ["aws.east"] against [aws.east]. *)
Lemma quoted_reference_resolves_like_bare_witness :
  decodeProviderAttribute Example.quoted_aws_east =
    decodeProviderAttribute Example.bare_aws_east /\
  decodeProviderAttribute Example.bare_aws_east =
    Some ({| LocalName := "aws"; ProviderRef_Alias := "east" |}, []).
Proof.
  apply (quoted_reference_resolves_like_bare ["aws"; "east"]
           Example.bare_aws_east Example.quoted_aws_east
           [TraverseRoot "aws" (Example.at_line "main.tf" 3);
            TraverseAttr "east" (Example.at_line "main.tf" 3)]
           [TraverseRoot "aws" Example.noRange; TraverseAttr "east" Example.noRange]
           [] []).
  - reflexivity.
  - simpl. auto.
  - reflexivity.
  - reflexivity.
  - reflexivity.
  - reflexivity.
  - reflexivity.
  - simpl. auto.
Defined.

(** C4 on an example: the number literal. *)
Lemma no_traversal_invalid_provider_reference_witness :
  exists d,
    decodeProviderAttribute Example.number_literal =
      Some ({| LocalName := ""; ProviderRef_Alias := "" |}, [d]) /\
    Severity d = DiagError /\
    Summary d = "Invalid provider reference" /\
    Subject d = Some (Example.at_line "main.tf" 9).
Proof.
  apply (no_traversal_invalid_provider_reference Example.number_literal).
  - intros t Ht. vm_compute in Ht. discriminate.
  - intros _ t Ht. vm_compute in Ht. discriminate.
Defined.

(** C5 on an example: the quoted reference, resolved by the second
    strategy. *)
Lemma traversal_gives_provider_reference_witness :
  decodeProviderAttribute Example.quoted_aws_east =
    Some ({| LocalName := "aws"; ProviderRef_Alias := "east" |}, []).
Proof.
  apply (traversal_gives_provider_reference Example.quoted_aws_east
           [TraverseRoot "aws" Example.noRange; TraverseAttr "east" Example.noRange]
           "aws" Example.noRange).
  - right. split; reflexivity.
  - simpl. lia.
  - reflexivity.
Defined.

(** ** The Requirement Merger *)

Section Merger.
Context `{Collaborators}.

Lemma requirementOf_Some s name r :
  requirementOf s name = Some r ->
  exists p, ProviderRequirements (acc s) !! name = Some p /\
            requirementCells (mem s) !! p = Some r.
Proof.
  unfold requirementOf. intros Hr.
  destruct (ProviderRequirements (acc s) !! name) as [p |] eqn:Hp; [| discriminate].
  exists p. split; [reflexivity | exact Hr].
Qed.

Lemma requirementAt_run s name p r :
  ProviderRequirements (acc s) !! name = Some p ->
  requirementCells (mem s) !! p = Some r ->
  requirementAt name s = (s, Some (p, r)).
Proof.
  intros Hp Hr. unfold requirementAt. rewrite Hp. simpl. rewrite Hr. reflexivity.
Qed.

Lemma update_requirementAt_run s name p r f :
  ProviderRequirements (acc s) !! name = Some p ->
  requirementCells (mem s) !! p = Some r ->
  update_requirementAt name f s = (set_requirementCells <[p := f r]> s, Some tt).
Proof.
  intros Hp Hr. unfold update_requirementAt, bind.
  rewrite (requirementAt_run _ _ _ _ Hp Hr). reflexivity.
Qed.

Lemma requirementOf_updated s name p r :
  ProviderRequirements (acc s) !! name = Some p ->
  p < length (requirementCells (mem s)) ->
  requirementOf (set_requirementCells <[p := r]> s) name = Some r.
Proof.
  intros Hp Hlt. unfold requirementOf. simpl. rewrite Hp. simpl.
  apply list_lookup_insert_eq. exact Hlt.
Qed.

Lemma append_VersionConstraints_run s name p r vs :
  ProviderRequirements (acc s) !! name = Some p ->
  requirementCells (mem s) !! p = Some r ->
  append_VersionConstraints name vs s =
    (set_requirementCells
       <[p := with_VersionConstraints (VersionConstraints r ++ vs) r]> s, Some tt).
Proof.
  intros Hp Hr. unfold append_VersionConstraints, bind.
  rewrite (requirementAt_run _ _ _ _ Hp Hr).
  rewrite (update_requirementAt_run _ _ _ _ _ Hp Hr). reflexivity.
Qed.

(** The merge of a fragment into an entry that exists, in full. *)
Lemma mergeRequirement_existing innerBlock diags name req s p existing :
  ProviderRequirements (acc s) !! name = Some p ->
  requirementCells (mem s) !! p = Some existing ->
  let source := providerRequirement_Source existing in
  let conflict :=
    bool_decide (providerRequirement_Source req <> "" /\ source <> "" /\
                 source <> providerRequirement_Source req) in
  mergeRequirement innerBlock diags (name, req) s =
    (set_requirementCells
       <[p := {| providerRequirement_Source :=
                   if bool_decide (providerRequirement_Source req = "") || conflict
                   then source else providerRequirement_Source req;
                 VersionConstraints :=
                   VersionConstraints existing ++ VersionConstraints req |}]> s,
     Some (if conflict
           then diags ++ [multipleProviderSources innerBlock name source
                            (providerRequirement_Source req)]
           else diags)).
Proof.
  intros Hp Hr source conflict.
  assert (Hlt : p < length (requirementCells (mem s))) by (eapply lookup_lt_Some; eauto).
  unfold mergeRequirement, bind, gets. rewrite Hp.
  destruct (decide (providerRequirement_Source req <> "")) as [Hreq | Hreq];
    [| apply dec_stable in Hreq;
       unfold ret; rewrite (append_VersionConstraints_run _ _ _ _ _ Hp Hr);
       subst conflict; rewrite (bool_decide_eq_true_2 _ Hreq);
       rewrite bool_decide_eq_false_2 by tauto; reflexivity].
  - rewrite (requirementAt_run _ _ _ _ Hp Hr). cbn [snd].
    fold source.
    destruct (decide (source <> "" /\ source <> providerRequirement_Source req))
      as [Hc | Hc].
    + unfold ret. rewrite (append_VersionConstraints_run _ _ _ _ _ Hp Hr).
      subst conflict. rewrite (bool_decide_eq_false_2 _ Hreq).
      rewrite bool_decide_eq_true_2 by tauto. reflexivity.
    + unfold bind. rewrite (update_requirementAt_run _ _ _ _ _ Hp Hr). unfold ret.
      set (s1 := set_requirementCells _ s).
      assert (Hp1 : ProviderRequirements (acc s1) !! name = Some p) by exact Hp.
      assert (Hr1 : requirementCells (mem s1) !! p =
                    Some (with_Source (providerRequirement_Source req) existing)).
      { subst s1. simpl. apply list_lookup_insert_eq. exact Hlt. }
      rewrite (append_VersionConstraints_run _ _ _ _ _ Hp1 Hr1).
      subst conflict. rewrite (bool_decide_eq_false_2 _ Hreq).
      rewrite bool_decide_eq_false_2 by tauto.
      subst s1. unfold set_requirementCells. simpl.
      rewrite list_insert_insert_eq. reflexivity.
Qed.

(** C1. When the accumulator holds provider [name] with the non-empty
    source [s0] and the fragment for [name] has a non-empty source that
    differs from [s0], the merge emits exactly one diagnostic, an error with
    summary "Multiple provider source attributes" whose detail quotes both
    sources; the stored source stays [s0] and the version constraints of the
    fragment are appended to those of the entry. *)
Theorem conflicting_source_is_reported_and_kept
    (innerBlock : Block) (diags : Diagnostics) (name : string)
    (req existing : providerRequirement) (s : State) :
  requirementOf s name = Some existing ->
  providerRequirement_Source existing <> "" ->
  providerRequirement_Source req <> "" ->
  providerRequirement_Source req <> providerRequirement_Source existing ->
  exists s' d,
    mergeRequirement innerBlock diags (name, req) s = (s', Some (diags ++ [d])) /\
    Severity d = DiagError /\
    Summary d = "Multiple provider source attributes" /\
    Detail d = "Found multiple source attributes for provider " +:+ name +:+ ": "
               +:+ strconv_Quote (providerRequirement_Source existing) +:+ ", "
               +:+ strconv_Quote (providerRequirement_Source req) /\
    requirementOf s' name =
      Some {| providerRequirement_Source := providerRequirement_Source existing;
              VersionConstraints :=
                VersionConstraints existing ++ VersionConstraints req |}.
Proof.
  intros Hex Hs Hreq Hne.
  destruct (requirementOf_Some _ _ _ Hex) as (p & Hp & Hr).
  eexists _, _. split.
  - rewrite (mergeRequirement_existing _ _ _ _ _ _ _ Hp Hr). cbn zeta.
    rewrite (bool_decide_eq_true_2
               (providerRequirement_Source req <> "" /\
                providerRequirement_Source existing <> "" /\
                providerRequirement_Source existing <> providerRequirement_Source req))
      by (repeat split; congruence).
    reflexivity.
  - repeat split.
    rewrite orb_true_r.
    apply requirementOf_updated; [exact Hp | eapply lookup_lt_Some; eauto].
Qed.

(** C2. When the accumulator holds provider [name] and the fragment's
    source is empty, or equal to the stored source, or the stored source is
    empty, the merge emits no diagnostic, the stored source becomes the
    fragment's source if that is non-empty (and stays otherwise), and the
    version constraints of the fragment are appended, in order and without
    deduplication, to those of the entry.  When the accumulator has no
    entry for [name], the fragment is stored unchanged, without a
    diagnostic. *)
Theorem compatible_fragment_is_merged
    (innerBlock : Block) (diags : Diagnostics) (name : string)
    (req : providerRequirement) (s : State) :
  (forall existing,
     requirementOf s name = Some existing ->
     providerRequirement_Source req = "" \/
     providerRequirement_Source req = providerRequirement_Source existing \/
     providerRequirement_Source existing = "" ->
     exists s',
       mergeRequirement innerBlock diags (name, req) s = (s', Some diags) /\
       requirementOf s' name =
         Some {| providerRequirement_Source :=
                   if decide (providerRequirement_Source req = "")
                   then providerRequirement_Source existing
                   else providerRequirement_Source req;
                 VersionConstraints :=
                   VersionConstraints existing ++ VersionConstraints req |}) /\
  (ProviderRequirements (acc s) !! name = None ->
   exists s',
     mergeRequirement innerBlock diags (name, req) s = (s', Some diags) /\
     requirementOf s' name = Some req).
Proof.
  split.
  - intros existing Hex Hcompat.
    destruct (requirementOf_Some _ _ _ Hex) as (p & Hp & Hr).
    eexists. split.
    + rewrite (mergeRequirement_existing _ _ _ _ _ _ _ Hp Hr). cbn zeta.
      rewrite (bool_decide_eq_false_2
                 (providerRequirement_Source req <> "" /\
                  providerRequirement_Source existing <> "" /\
                  providerRequirement_Source existing <> providerRequirement_Source req))
        by (intros (? & ? & ?); destruct Hcompat as [? | [? | ?]]; congruence).
      reflexivity.
    + rewrite orb_false_r.
      rewrite requirementOf_updated; [| exact Hp | eapply lookup_lt_Some; eauto].
      destruct (decide (providerRequirement_Source req = "")) as [Hreq | Hreq].
      * rewrite (bool_decide_eq_true_2 _ Hreq). reflexivity.
      * rewrite (bool_decide_eq_false_2 _ Hreq). reflexivity.
  - intros Hnone. eexists. split.
    + unfold mergeRequirement, bind, gets. rewrite Hnone. reflexivity.
    + unfold requirementOf. simpl. rewrite lookup_insert_eq. simpl.
      rewrite lookup_app_r by lia. rewrite Nat.sub_diag. reflexivity.
Qed.

End Merger.

(** C1 on an example: [hashicorp/aws], then [example/aws]. *)
Lemma conflicting_source_is_reported_and_kept_witness :
  exists s' d,
    mergeRequirement Example.required_providers_block []
      ("aws", {| providerRequirement_Source := "example/aws";
                 VersionConstraints := ["~> 3.0"] |})
      Example.requires_hashicorp_aws = (s', Some ([] ++ [d])) /\
    Severity d = DiagError /\
    Summary d = "Multiple provider source attributes" /\
    Detail d = "Found multiple source attributes for provider " +:+ "aws" +:+ ": "
               +:+ strconv_Quote "hashicorp/aws" +:+ ", " +:+ strconv_Quote "example/aws" /\
    requirementOf s' "aws" =
      Some {| providerRequirement_Source := "hashicorp/aws";
              VersionConstraints := [">= 2.0"] ++ ["~> 3.0"] |}.
Proof.
  apply (conflicting_source_is_reported_and_kept Example.required_providers_block []
           "aws"
           {| providerRequirement_Source := "example/aws";
              VersionConstraints := ["~> 3.0"] |}
           {| providerRequirement_Source := "hashicorp/aws";
              VersionConstraints := [">= 2.0"] |}
           Example.requires_hashicorp_aws).
  - vm_compute. reflexivity.
  - discriminate.
  - discriminate.
  - discriminate.
Defined.

(** C2 on an example: the same source declared twice, and a fragment for a
    provider not yet required. *)
Lemma compatible_fragment_is_merged_witness :
  (exists s',
     mergeRequirement Example.required_providers_block []
       ("aws", {| providerRequirement_Source := "hashicorp/aws";
                  VersionConstraints := [">= 2.0"] |})
       Example.requires_hashicorp_aws = (s', Some []) /\
     requirementOf s' "aws" =
       Some {| providerRequirement_Source := "hashicorp/aws";
               VersionConstraints := [">= 2.0"; ">= 2.0"] |}) /\
  (exists s',
     mergeRequirement Example.required_providers_block []
       ("google", {| providerRequirement_Source := "hashicorp/google";
                     VersionConstraints := [] |})
       Example.requires_hashicorp_aws = (s', Some []) /\
     requirementOf s' "google" =
       Some {| providerRequirement_Source := "hashicorp/google";
               VersionConstraints := [] |}).
Proof.
  split.
  - apply (proj1 (compatible_fragment_is_merged Example.required_providers_block []
                    "aws"
                    {| providerRequirement_Source := "hashicorp/aws";
                       VersionConstraints := [">= 2.0"] |}
                    Example.requires_hashicorp_aws)
             {| providerRequirement_Source := "hashicorp/aws";
                VersionConstraints := [">= 2.0"] |}).
    + vm_compute. reflexivity.
    + right. left. reflexivity.
  - apply (proj2 (compatible_fragment_is_merged Example.required_providers_block []
                    "google"
                    {| providerRequirement_Source := "hashicorp/google";
                       VersionConstraints := [] |}
                    Example.requires_hashicorp_aws)).
    vm_compute. reflexivity.
Defined.

(** ** Relations every step of the decoder preserves *)

Section Preservation.
Context {R : State -> State -> Prop}.
Hypothesis R_refl : forall s, R s s.
Hypothesis R_trans : forall s1 s2 s3, R s1 s2 -> R s2 s3 -> R s1 s3.

Lemma preserves_ret {A} (a : A) : preserves R (ret a).
Proof. intros s. apply R_refl. Qed.

Lemma preserves_panic {A} : preserves R (@panic A).
Proof. intros s. apply R_refl. Qed.

Lemma preserves_gets {A} (f : State -> A) : preserves R (gets f).
Proof. intros s. apply R_refl. Qed.

Lemma preserves_orPanic {A} (o : option A) : preserves R (orPanic o).
Proof. destruct o; [apply preserves_ret | apply preserves_panic]. Qed.

Lemma preserves_bind {A B} (m : M A) (k : A -> M B) :
  preserves R m -> (forall a, preserves R (k a)) -> preserves R (bind m k).
Proof.
  intros Hm Hk s. unfold bind. specialize (Hm s).
  destruct (m s) as [s1 [a |]]; simpl in *; [| exact Hm].
  eapply R_trans; [exact Hm | apply Hk].
Qed.

Lemma preserves_modify (f : State -> State) :
  (forall s, R s (f s)) -> preserves R (modify f).
Proof. intros Hf s. apply Hf. Qed.

Lemma preserves_foldM {A B} (f : B -> A -> M B) (l : list A) :
  (forall b x, preserves R (f b x)) -> forall b, preserves R (foldM f b l).
Proof.
  intros Hf. induction l as [| x l IH]; intros b; simpl.
  - apply preserves_ret.
  - apply preserves_bind; [apply Hf | intros b'; apply IH].
Qed.

Lemma preserves_index labels i : preserves R (index labels i).
Proof. apply preserves_orPanic. Qed.

Lemma preserves_requirementAt name : preserves R (requirementAt name).
Proof. intros s. unfold requirementAt. apply preserves_orPanic. Qed.

Lemma preserves_load_resource p : preserves R (load_resource p).
Proof. intros s. unfold load_resource. apply preserves_orPanic. Qed.

Lemma preserves_load_dataSource p : preserves R (load_dataSource p).
Proof. intros s. unfold load_dataSource. apply preserves_orPanic. Qed.

Lemma preserves_load_moduleSource p : preserves R (load_moduleSource p).
Proof. intros s. unfold load_moduleSource. apply preserves_orPanic. Qed.

End Preservation.

Section DecoderPreserves.
Context `{Collaborators}.
Context {R : State -> State -> Prop}.
Hypothesis R_refl : forall s, R s s.
Hypothesis R_trans : forall s1 s2 s3, R s1 s2 -> R s2 s3 -> R s1 s3.
Hypothesis R_new_requirement : forall s name r,
  ProviderRequirements (acc s) !! name = None ->
  R s (set_ProviderRequirements <[name := length (requirementCells (mem s))]>
         (set_requirementCells (fun c => c ++ [r]) s)).
Hypothesis R_with_Source : forall s p r source,
  requirementCells (mem s) !! p = Some r ->
  R s (set_requirementCells <[p := with_Source source r]> s).
Hypothesis R_append_VersionConstraints : forall s p r vs,
  requirementCells (mem s) !! p = Some r ->
  R s (set_requirementCells
         <[p := with_VersionConstraints (VersionConstraints r ++ vs) r]> s).
Hypothesis R_ProviderConfigs : forall s key c, R s (set_ProviderConfigs <[key := c]> s).
Hypothesis R_Resources : forall s key p, R s (set_Resources <[key := p]> s).
Hypothesis R_DataSources : forall s key p, R s (set_DataSources <[key := p]> s).
Hypothesis R_ModuleSources : forall s key p, R s (set_ModuleSources <[key := p]> s).
Hypothesis R_resourceCells : forall s f, R s (set_resourceCells f s).
Hypothesis R_dataSourceCells : forall s f, R s (set_dataSourceCells f s).
Hypothesis R_moduleSourceCells : forall s f, R s (set_moduleSourceCells f s).

Lemma preserves_bind_at {A B} (m : M A) (k : A -> M B) s :
  R s (m s).1 -> (forall a, preserves R (k a)) -> R s (bind m k s).1.
Proof.
  intros Hm Hk. unfold bind.
  destruct (m s) as [s1 [a |]]; simpl in *; [| exact Hm].
  eapply R_trans; [exact Hm | apply Hk].
Qed.

Lemma preserves_update_with_Source name source :
  preserves R (update_requirementAt name (with_Source source)).
Proof.
  intros s. unfold update_requirementAt, bind, requirementAt.
  destruct (ProviderRequirements (acc s) !! name) as [p |]; simpl; [| apply R_refl].
  destruct (requirementCells (mem s) !! p) as [r |] eqn:Hr; simpl; [| apply R_refl].
  apply R_with_Source, Hr.
Qed.

Lemma preserves_append_VersionConstraints name vs :
  preserves R (append_VersionConstraints name vs).
Proof.
  intros s.
  destruct (ProviderRequirements (acc s) !! name) as [p |] eqn:Hp.
  - destruct (requirementCells (mem s) !! p) as [r |] eqn:Hr.
    + rewrite (append_VersionConstraints_run _ _ _ _ _ Hp Hr).
      apply R_append_VersionConstraints, Hr.
    + unfold append_VersionConstraints, bind, requirementAt. rewrite Hp. simpl.
      rewrite Hr. apply R_refl.
  - unfold append_VersionConstraints, bind, requirementAt. rewrite Hp. apply R_refl.
Qed.

Lemma preserves_store_resource p f : preserves R (store_resource p f).
Proof.
  apply preserves_bind; [assumption.. | apply preserves_load_resource, R_refl |].
  intros r. apply preserves_modify. intros s. apply R_resourceCells.
Qed.

Lemma preserves_store_dataSource p f : preserves R (store_dataSource p f).
Proof.
  apply preserves_bind; [assumption.. | apply preserves_load_dataSource, R_refl |].
  intros r. apply preserves_modify. intros s. apply R_dataSourceCells.
Qed.

Lemma preserves_store_moduleSource p f : preserves R (store_moduleSource p f).
Proof.
  apply preserves_bind; [assumption.. | apply preserves_load_moduleSource, R_refl |].
  intros r. apply preserves_modify. intros s. apply R_moduleSourceCells.
Qed.

Lemma preserves_mergeRequirement innerBlock diags entry :
  preserves R (mergeRequirement innerBlock diags entry).
Proof.
  destruct entry as [name req]. intros s.
  unfold mergeRequirement. unfold bind at 1. unfold gets.
  destruct (ProviderRequirements (acc s) !! name) as [p |] eqn:Hp.
  - apply preserves_bind_at.
    + destruct (decide (providerRequirement_Source req <> "")); [| apply R_refl].
      apply preserves_bind_at; [apply preserves_requirementAt, R_refl |].
      intros pr. destruct (decide _); [apply preserves_ret, R_refl |].
      apply preserves_bind; [assumption.. | apply preserves_update_with_Source |].
      intros _. apply preserves_ret, R_refl.
    + intros diags'. apply preserves_bind;
        [assumption.. | apply preserves_append_VersionConstraints |].
      intros _. apply preserves_ret, R_refl.
  - unfold bind, new_requirement, modify, ret. simpl.
    apply R_new_requirement, Hp.
Qed.

Lemma preserves_loadInnerBlock diags innerBlock :
  preserves R (loadInnerBlock diags innerBlock).
Proof.
  unfold loadInnerBlock. destruct (decide _); [| apply preserves_ret, R_refl].
  destruct (decodeRequiredProvidersBlock innerBlock) as [reqs reqsDiags].
  apply preserves_foldM; [assumption.. |].
  intros d entry. apply preserves_mergeRequirement.
Qed.

Lemma preserves_providerCase block diags : preserves R (providerCase block diags).
Proof.
  unfold providerCase.
  destruct (PartialContent (Block_Body block) providerConfigSchema) as [content contentDiags].
  apply preserves_bind; [assumption.. | apply preserves_index, R_refl |].
  intros name s. unfold bind at 1. unfold gets.
  apply preserves_bind_at.
  - destruct (ProviderRequirements (acc s) !! name) as [p |] eqn:Hp; [apply R_refl |].
    unfold bind, new_requirement, modify. simpl. apply R_new_requirement, Hp.
  - intros _. apply preserves_bind; [assumption.. | |].
    + destruct (Attributes content !! "version") as [attr |];
        [| apply preserves_ret, R_refl].
      destruct (DecodeExpression (Expr attr)) as [version valDiags].
      destruct (negb (HasErrors valDiags)); [| apply preserves_ret, R_refl].
      apply preserves_bind; [assumption.. | apply preserves_append_VersionConstraints |].
      intros _. apply preserves_ret, R_refl.
    + intros diags'.
      destruct (match Attributes content !! "alias" with
                | Some attr => _ | None => _ end) as [[providerKey alias] diags''].
      apply preserves_bind; [assumption.. | |].
      * apply preserves_modify. intros s'. apply R_ProviderConfigs.
      * intros _. apply preserves_ret, R_refl.
Qed.

Lemma preserves_dataCase block diags : preserves R (dataCase block diags).
Proof.
  unfold dataCase.
  destruct (PartialContent (Block_Body block) resourceSchema) as [content contentDiags].
  apply preserves_bind; [assumption.. | apply preserves_index, R_refl |]. intros ty.
  apply preserves_bind; [assumption.. | apply preserves_index, R_refl |]. intros nm.
  apply preserves_bind; [assumption.. | intros s; apply R_dataSourceCells |]. intros ds.
  apply preserves_bind; [assumption.. | apply preserves_load_dataSource, R_refl |]. intros d.
  apply preserves_bind; [assumption.. | apply preserves_modify; intros s; apply R_DataSources |].
  intros _.
  destruct (Attributes content !! "provider") as [attr |].
  - apply preserves_bind; [assumption.. | apply preserves_orPanic, R_refl |].
    intros [ref aDiags].
    apply preserves_bind; [assumption.. | apply preserves_store_dataSource |].
    intros _. apply preserves_ret, R_refl.
  - apply preserves_bind; [assumption.. | apply preserves_load_dataSource, R_refl |]. intros d'.
    apply preserves_bind; [assumption.. | apply preserves_store_dataSource |].
    intros _. apply preserves_ret, R_refl.
Qed.

Lemma preserves_resourceCase block diags : preserves R (resourceCase block diags).
Proof.
  unfold resourceCase.
  destruct (PartialContent (Block_Body block) resourceSchema) as [content contentDiags].
  apply preserves_bind; [assumption.. | apply preserves_index, R_refl |]. intros ty.
  apply preserves_bind; [assumption.. | apply preserves_index, R_refl |]. intros nm.
  apply preserves_bind; [assumption.. | intros s; apply R_resourceCells |]. intros r.
  apply preserves_bind; [assumption.. | apply preserves_load_resource, R_refl |]. intros r0.
  apply preserves_bind; [assumption.. | apply preserves_modify; intros s; apply R_Resources |].
  intros _.
  destruct (Attributes content !! "provider") as [attr |].
  - apply preserves_bind; [assumption.. | apply preserves_orPanic, R_refl |].
    intros [ref aDiags].
    apply preserves_bind; [assumption.. | apply preserves_store_resource |].
    intros _. apply preserves_ret, R_refl.
  - apply preserves_bind; [assumption.. | apply preserves_load_resource, R_refl |]. intros r'.
    apply preserves_bind; [assumption.. | apply preserves_store_resource |].
    intros _. apply preserves_ret, R_refl.
Qed.

Lemma preserves_moduleCase block diags : preserves R (moduleCase block diags).
Proof.
  unfold moduleCase.
  destruct (PartialContent (Block_Body block) moduleSchema) as [content contentDiags].
  apply preserves_bind; [assumption.. | apply preserves_index, R_refl |]. intros name.
  apply preserves_bind; [assumption.. | intros s; apply R_moduleSourceCells |]. intros ms.
  apply preserves_bind; [assumption.. | apply preserves_load_moduleSource, R_refl |]. intros m.
  apply preserves_bind;
    [assumption.. | apply preserves_modify; intros s; apply R_ModuleSources |].
  intros _.
  destruct (Attributes content !! "source") as [attr |]; [| apply preserves_ret, R_refl].
  destruct (DecodeExpression (Expr attr)) as [source valDiags].
  apply preserves_bind; [assumption.. | apply preserves_store_moduleSource |].
  intros _. apply preserves_ret, R_refl.
Qed.

(** The inner loop of the [terraform] case. *)
Lemma preserves_loadInnerBlocks diags innerBlocks :
  preserves R (foldM loadInnerBlock diags innerBlocks).
Proof.
  apply preserves_foldM; [assumption.. |]. intros d b. apply preserves_loadInnerBlock.
Qed.

End DecoderPreserves.

(** ** The accumulator only grows *)

Lemma grows_refl s : grows s s.
Proof.
  repeat split; try reflexivity.
  intros p r Hr. exists r. split; [exact Hr | reflexivity].
Qed.

Lemma grows_trans s1 s2 s3 : grows s1 s2 -> grows s2 s3 -> grows s1 s3.
Proof.
  intros (Hc1 & Hr1 & Hp1 & Hs1 & Hd1 & Hm1 & Hv1) (Hc2 & Hr2 & Hp2 & Hs2 & Hd2 & Hm2 & Hv2).
  repeat split; try (etrans; eassumption).
  intros p r Hr. destruct (Hv1 _ _ Hr) as (r' & Hr' & Hpre).
  destruct (Hv2 _ _ Hr') as (r'' & Hr'' & Hpre').
  exists r''. split; [exact Hr'' | etrans; eassumption].
Qed.

(** A step that leaves the requirement cells alone grows the accumulator
    as soon as its maps and required core versions do. *)
Lemma grows_same_cells s s' :
  requirementCells (mem s') = requirementCells (mem s) ->
  RequiredCore (acc s) `prefix_of` RequiredCore (acc s') ->
  ProviderRequirements (acc s) ⊆ ProviderRequirements (acc s') ->
  dom (ProviderConfigs (acc s)) ⊆ dom (ProviderConfigs (acc s')) ->
  dom (Resources (acc s)) ⊆ dom (Resources (acc s')) ->
  dom (DataSources (acc s)) ⊆ dom (DataSources (acc s')) ->
  dom (ModuleSources (acc s)) ⊆ dom (ModuleSources (acc s')) ->
  grows s s'.
Proof.
  intros Hcells. repeat split; try assumption.
  intros p r Hr. exists r. rewrite Hcells. split; [exact Hr | reflexivity].
Qed.

(** A write to one requirement cell that extends its version constraints
    grows the accumulator. *)
Lemma grows_requirement_cell s p r r' :
  requirementCells (mem s) !! p = Some r ->
  VersionConstraints r `prefix_of` VersionConstraints r' ->
  grows s (set_requirementCells <[p := r']> s).
Proof.
  intros Hr Hpre. repeat split; try reflexivity.
  intros q rq Hq. simpl. destruct (decide (q = p)) as [-> | Hne].
  - exists r'. rewrite list_lookup_insert_eq by (eapply lookup_lt_Some; eauto).
    split; [reflexivity |]. congruence.
  - exists rq. rewrite list_lookup_insert_ne by congruence.
    split; [exact Hq | reflexivity].
Qed.

Lemma grows_new_requirement s name r :
  ProviderRequirements (acc s) !! name = None ->
  grows s (set_ProviderRequirements <[name := length (requirementCells (mem s))]>
             (set_requirementCells (fun c => c ++ [r]) s)).
Proof.
  intros Hnone. repeat split; try reflexivity.
  - simpl. apply insert_subseteq, Hnone.
  - intros p rp Hp. exists rp. simpl.
    split; [apply lookup_app_l_Some, Hp | reflexivity].
Qed.

Ltac grows_side :=
  first [exact grows_refl | exact grows_trans | exact grows_new_requirement | assumption].

Section Growth.
Context `{Collaborators}.

Lemma grows_RequiredCore s version :
  grows s (set_RequiredCore (fun c => c ++ [version]) s).
Proof.
  apply grows_same_cells; try reflexivity. simpl. apply prefix_app_r. reflexivity.
Qed.

Lemma grows_loadBlock diags block : preserves grows (loadBlock diags block).
Proof.
  assert (Hsrc : forall s p r source,
            requirementCells (mem s) !! p = Some r ->
            grows s (set_requirementCells <[p := with_Source source r]> s)).
  { intros s p r source Hr. eapply grows_requirement_cell; [exact Hr | reflexivity]. }
  assert (Happ : forall s p r vs,
            requirementCells (mem s) !! p = Some r ->
            grows s (set_requirementCells
                       <[p := with_VersionConstraints (VersionConstraints r ++ vs) r]> s)).
  { intros s p r vs Hr. eapply grows_requirement_cell; [exact Hr |].
    simpl. apply prefix_app_r. reflexivity. }
  assert (Hcfg : forall s key c, grows s (set_ProviderConfigs <[key := c]> s)).
  { intros. apply grows_same_cells; try reflexivity. simpl. apply dom_insert_subseteq. }
  assert (Hres : forall s key p, grows s (set_Resources <[key := p]> s)).
  { intros. apply grows_same_cells; try reflexivity. simpl. apply dom_insert_subseteq. }
  assert (Hdat : forall s key p, grows s (set_DataSources <[key := p]> s)).
  { intros. apply grows_same_cells; try reflexivity. simpl. apply dom_insert_subseteq. }
  assert (Hmod : forall s key p, grows s (set_ModuleSources <[key := p]> s)).
  { intros. apply grows_same_cells; try reflexivity. simpl. apply dom_insert_subseteq. }
  assert (Hrc : forall s f, grows s (set_resourceCells f s)).
  { intros. apply grows_same_cells; reflexivity. }
  assert (Hdc : forall s f, grows s (set_dataSourceCells f s)).
  { intros. apply grows_same_cells; reflexivity. }
  assert (Hmc : forall s f, grows s (set_moduleSourceCells f s)).
  { intros. apply grows_same_cells; reflexivity. }
  unfold loadBlock.
  destruct (decide (Block_Type block = "terraform")).
  { unfold terraformCase.
    destruct (PartialContent (Block_Body block) terraformBlockSchema)
      as [content contentDiags].
    apply preserves_bind; [grows_side | |].
    - destruct (Attributes content !! "required_version") as [attr |];
        [| apply preserves_ret, grows_refl].
      destruct (DecodeExpression (Expr attr)) as [version valDiags].
      destruct (negb (HasErrors valDiags)); [| apply preserves_ret, grows_refl].
      apply preserves_bind; [grows_side | |].
      + apply preserves_modify. intros s. apply grows_RequiredCore.
      + intros _. apply preserves_ret, grows_refl.
    - intros d. apply preserves_loadInnerBlocks; grows_side. }
  destruct (decide (Block_Type block = "provider")).
  { apply preserves_providerCase; grows_side. }
  destruct (decide (Block_Type block = "data")).
  { apply preserves_dataCase; grows_side. }
  destruct (decide (Block_Type block = "resource")).
  { apply preserves_resourceCase; grows_side. }
  destruct (decide (Block_Type block = "module")).
  { apply preserves_moduleCase; grows_side. }
  apply preserves_ret, grows_refl.
Qed.

Lemma grows_loadBlock_merge innerBlock diags entry :
  preserves grows (mergeRequirement innerBlock diags entry).
Proof.
  apply preserves_mergeRequirement; try grows_side.
  - intros s p r source Hr. eapply grows_requirement_cell; [exact Hr | reflexivity].
  - intros s p r vs Hr. eapply grows_requirement_cell; [exact Hr |].
    simpl. apply prefix_app_r. reflexivity.
Qed.

Lemma grows_loadModuleFromFile file : preserves grows (loadModuleFromFile file).
Proof.
  unfold loadModuleFromFile.
  destruct (PartialContent (File_Body file) rootSchema) as [content contentDiags].
  apply preserves_foldM; [grows_side.. |]. intros d b. apply grows_loadBlock.
Qed.

End Growth.

Section GrowthClaim.
Context `{Collaborators}.

(** C10. Whatever the file and however the call ends, after
    [loadModuleFromFile] each of the five maps has at least the keys it had
    before, the required core versions have the former sequence as a
    prefix, and every provider requirement that was retrievable still is,
    with the former sequence of version constraints as a prefix of the new
    one. *)
Theorem loadModuleFromFile_only_grows (file : File) (s : State) :
  dom (ProviderRequirements (acc s)) ⊆
    dom (ProviderRequirements (acc (loadModuleFromFile file s).1)) /\
  dom (ProviderConfigs (acc s)) ⊆ dom (ProviderConfigs (acc (loadModuleFromFile file s).1)) /\
  dom (Resources (acc s)) ⊆ dom (Resources (acc (loadModuleFromFile file s).1)) /\
  dom (DataSources (acc s)) ⊆ dom (DataSources (acc (loadModuleFromFile file s).1)) /\
  dom (ModuleSources (acc s)) ⊆ dom (ModuleSources (acc (loadModuleFromFile file s).1)) /\
  RequiredCore (acc s) `prefix_of` RequiredCore (acc (loadModuleFromFile file s).1) /\
  (forall name r,
     requirementOf s name = Some r ->
     exists r',
       requirementOf (loadModuleFromFile file s).1 name = Some r' /\
       VersionConstraints r `prefix_of` VersionConstraints r').
Proof.
  destruct (grows_loadModuleFromFile file s) as (Hc & Hr & Hp & Hs & Hd & Hm & Hv).
  repeat split; try assumption.
  - apply subseteq_dom, Hr.
  - intros name r Hreq.
    destruct (requirementOf_Some _ _ _ Hreq) as (p & Hp' & Hcell).
    destruct (Hv _ _ Hcell) as (r' & Hcell' & Hpre).
    exists r'. split; [| exact Hpre].
    unfold requirementOf. rewrite (lookup_weaken _ _ _ _ Hp' Hr). exact Hcell'.
Qed.

End GrowthClaim.

(** ** Required core versions *)

Lemma sameRequiredCore_refl s : sameRequiredCore s s.
Proof. reflexivity. Qed.

Lemma sameRequiredCore_trans s1 s2 s3 :
  sameRequiredCore s1 s2 -> sameRequiredCore s2 s3 -> sameRequiredCore s1 s3.
Proof. unfold sameRequiredCore. congruence. Qed.

Ltac sameRequiredCore_side :=
  first [exact sameRequiredCore_refl | exact sameRequiredCore_trans
        | intros; reflexivity].

Lemma extends_foldM {A} (f : Diagnostics -> A -> M Diagnostics) (l : list A) :
  (forall d x, extends d (f d x)) -> forall d, extends d (foldM f d l).
Proof.
  intros Hf. induction l as [| x l IH]; intros d s s' d' Hrun; simpl in Hrun.
  - injection Hrun as _ <-. reflexivity.
  - unfold bind in Hrun. destruct (f d x s) as [s1 [d1 |]] eqn:Hstep; [| discriminate].
    etrans; [eapply Hf, Hstep | eapply IH, Hrun].
Qed.

Section RequiredVersions.
Context `{Collaborators}.

Lemma mergeRequirement_nil_pointer innerBlock diags name req s p :
  ProviderRequirements (acc s) !! name = Some p ->
  requirementCells (mem s) !! p = None ->
  mergeRequirement innerBlock diags (name, req) s = (s, None).
Proof.
  intros Hp Hr.
  assert (Hat : requirementAt name s = (s, None)).
  { unfold requirementAt. rewrite Hp. simpl. rewrite Hr. reflexivity. }
  unfold mergeRequirement, bind, gets. rewrite Hp.
  destruct (decide (providerRequirement_Source req <> "")).
  - rewrite Hat. reflexivity.
  - unfold ret, append_VersionConstraints, bind. rewrite Hat. reflexivity.
Qed.

Lemma extends_mergeRequirement innerBlock diags entry :
  extends diags (mergeRequirement innerBlock diags entry).
Proof.
  destruct entry as [name req]. intros s s' diags' Hrun.
  destruct (ProviderRequirements (acc s) !! name) as [p |] eqn:Hp.
  - destruct (requirementCells (mem s) !! p) as [r |] eqn:Hr.
    + rewrite (mergeRequirement_existing _ _ _ _ _ _ _ Hp Hr) in Hrun.
      cbn zeta in Hrun. injection Hrun as _ <-.
      destruct (bool_decide _); [apply prefix_app_r |]; reflexivity.
    + rewrite (mergeRequirement_nil_pointer _ _ _ _ _ _ Hp Hr) in Hrun. discriminate.
  - unfold mergeRequirement, bind, gets in Hrun. rewrite Hp in Hrun.
    injection Hrun as _ <-. reflexivity.
Qed.

Lemma extends_loadInnerBlocks diags innerBlocks :
  extends diags (foldM loadInnerBlock diags innerBlocks).
Proof.
  apply extends_foldM. intros d b s s' d' Hrun. unfold loadInnerBlock in Hrun.
  destruct (decide _).
  - destruct (decodeRequiredProvidersBlock b) as [reqs reqsDiags].
    etrans; [apply (prefix_app_r d d reqsDiags); reflexivity |].
    eapply extends_foldM; [| exact Hrun].
    intros d0 x. apply extends_mergeRequirement.
  - injection Hrun as _ <-. reflexivity.
Qed.

(** What one top-level block does to the required core versions, however
    its processing ends. *)
Lemma loadBlock_RequiredCore diags block s :
  RequiredCore (acc (loadBlock diags block s).1) =
    RequiredCore (acc s) ++ blockRequiredVersion block.
Proof.
  unfold loadBlock, blockRequiredVersion.
  destruct (decide (Block_Type block = "terraform")).
  { unfold terraformCase.
    destruct (PartialContent (Block_Body block) terraformBlockSchema)
      as [content contentDiags]. cbn [fst].
    destruct (Attributes content !! "required_version") as [attr |].
    - destruct (DecodeExpression (Expr attr)) as [version valDiags]. cbn [fst snd].
      destruct (HasErrors valDiags); cbn [negb]; unfold bind at 1.
      + unfold ret. rewrite app_nil_r.
        apply (preserves_loadInnerBlocks (R := sameRequiredCore));
          sameRequiredCore_side.
      + unfold bind at 1. unfold modify, ret.
        rewrite (preserves_loadInnerBlocks (R := sameRequiredCore));
          sameRequiredCore_side.
    - unfold bind at 1. unfold ret. rewrite app_nil_r.
      apply (preserves_loadInnerBlocks (R := sameRequiredCore));
        sameRequiredCore_side. }
  rewrite app_nil_r.
  destruct (decide (Block_Type block = "provider")).
  { apply (preserves_providerCase (R := sameRequiredCore)); sameRequiredCore_side. }
  destruct (decide (Block_Type block = "data")).
  { apply (preserves_dataCase (R := sameRequiredCore)); sameRequiredCore_side. }
  destruct (decide (Block_Type block = "resource")).
  { apply (preserves_resourceCase (R := sameRequiredCore)); sameRequiredCore_side. }
  destruct (decide (Block_Type block = "module")).
  { apply (preserves_moduleCase (R := sameRequiredCore)); sameRequiredCore_side. }
  reflexivity.
Qed.

Lemma loadBlocks_RequiredCore blocks : forall diags s,
  is_Some (foldM loadBlock diags blocks s).2 ->
  RequiredCore (acc (foldM loadBlock diags blocks s).1) =
    RequiredCore (acc s) ++ flat_map blockRequiredVersion blocks.
Proof.
  induction blocks as [| b blocks IH]; intros diags s Hret; simpl in *.
  - rewrite app_nil_r. reflexivity.
  - unfold bind in *. pose proof (loadBlock_RequiredCore diags b s) as Hb.
    destruct (loadBlock diags b s) as [s1 [d1 |]]; simpl in *.
    + rewrite (IH _ _ Hret), Hb, app_assoc. reflexivity.
    + destruct Hret as [? ?]. discriminate.
Qed.

Lemma loadModuleFromFile_RequiredCore file s :
  is_Some (loadModuleFromFile file s).2 ->
  RequiredCore (acc (loadModuleFromFile file s).1) =
    RequiredCore (acc s) ++ fileRequiredVersions file.
Proof.
  unfold loadModuleFromFile, fileRequiredVersions.
  destruct (PartialContent (File_Body file) rootSchema) as [content contentDiags].
  apply loadBlocks_RequiredCore.
Qed.

End RequiredVersions.

Section RequiredVersionsClaim.
Context `{Collaborators}.

Lemma loadModuleFromFiles_RequiredCore files : forall s,
  is_Some (loadModuleFromFiles files s).2 ->
  RequiredCore (acc (loadModuleFromFiles files s).1) =
    RequiredCore (acc s) ++ flat_map fileRequiredVersions files.
Proof.
  induction files as [| file files IH]; intros s Hret; simpl in *.
  - rewrite app_nil_r. reflexivity.
  - unfold bind in *. pose proof (loadModuleFromFile_RequiredCore file s) as Hfile.
    destruct (loadModuleFromFile file s) as [s1 [d1 |]]; simpl in *.
    + specialize (IH s1).
      destruct (loadModuleFromFiles files s1) as [s2 [ds |]]; simpl in *.
      * rewrite IH by eauto. rewrite Hfile by eauto. rewrite app_assoc. reflexivity.
      * destruct Hret as [? ?]. discriminate.
    + destruct Hret as [? ?]. discriminate.
Qed.

(** C8. After any sequence of calls of [loadModuleFromFile] on one
    accumulator that all return (as they do on well-shaped blocks, see
    [loadModuleFromFiles_returns] below), the required core versions are
    the former ones followed by the [required_version] values that decode
    as static literal strings, in the order of the files and of their
    blocks, with repetitions kept.  A [terraform] block whose
    [required_version] does not decode without errors leaves the sequence
    as it was and, when its processing returns, the diagnostics of the
    failed decoding are among those returned. *)
Theorem required_versions_accumulate_in_order :
  (forall files s,
     is_Some (loadModuleFromFiles files s).2 ->
     RequiredCore (acc (loadModuleFromFiles files s).1) =
       RequiredCore (acc s) ++ flat_map fileRequiredVersions files) /\
  (forall diags block s attr,
     Block_Type block = "terraform" ->
     Attributes (PartialContent (Block_Body block) terraformBlockSchema).1
       !! "required_version" = Some attr ->
     HasErrors (DecodeExpression (Expr attr)).2 = true ->
     RequiredCore (acc (loadBlock diags block s).1) = RequiredCore (acc s) /\
     forall diags',
       (loadBlock diags block s).2 = Some diags' ->
       ((diags ++ (PartialContent (Block_Body block) terraformBlockSchema).2)
          ++ (DecodeExpression (Expr attr)).2) `prefix_of` diags').
Proof.
  split; [apply loadModuleFromFiles_RequiredCore |].
  intros diags block s attr Hty Hattr Herr. split.
  - rewrite loadBlock_RequiredCore. unfold blockRequiredVersion.
    rewrite decide_True by exact Hty. rewrite Hattr, Herr. apply app_nil_r.
  - intros diags' Hrun. unfold loadBlock in Hrun.
    rewrite decide_True in Hrun by exact Hty. unfold terraformCase in Hrun.
    destruct (PartialContent (Block_Body block) terraformBlockSchema)
      as [content contentDiags]. cbn [fst snd] in *. rewrite Hattr in Hrun.
    destruct (DecodeExpression (Expr attr)) as [version valDiags]. cbn [snd] in *.
    rewrite Herr in Hrun. cbn [negb] in Hrun. unfold bind at 1 in Hrun.
    unfold ret in Hrun.
    destruct (foldM loadInnerBlock _ (Blocks content) s) as [s' out] eqn:Hfold.
    simpl in Hrun. subst out.
    eapply extends_loadInnerBlocks, Hfold.
Qed.

End RequiredVersionsClaim.

(** C8 on an example: two files on a fresh accumulator. *)
Lemma required_versions_accumulate_in_order_witness :
  RequiredCore (acc (loadModuleFromFiles [Example.versions_tf; Example.main_tf] newState).1) =
    [] ++ flat_map fileRequiredVersions [Example.versions_tf; Example.main_tf] /\
  RequiredCore (acc (loadBlock [] Example.terraform_var_version newState).1) = [].
Proof.
  split.
  - apply (proj1 required_versions_accumulate_in_order
             [Example.versions_tf; Example.main_tf] newState).
    vm_compute. eexists. reflexivity.
  - apply (proj2 required_versions_accumulate_in_order []
             Example.terraform_var_version newState
             {| Attribute_Name := "required_version";
                Expr := Example.variable "tf_version" 2 |}).
    + reflexivity.
    + vm_compute. reflexivity.
    + reflexivity.
Defined.

(** The two files give [">= 0.12"] twice and then ["< 2.0"]. *)
Example two_files_required_core :
  RequiredCore (acc (loadModuleFromFiles [Example.versions_tf; Example.main_tf] newState).1) =
    [">= 0.12"; ">= 0.12"; "< 2.0"].
Proof. vm_compute. reflexivity. Qed.

(** ** Declarations of resources, data sources and module calls *)

Lemma insert_last {A} (l : list A) (x y : A) : <[length l := y]> (l ++ [x]) = l ++ [y].
Proof. induction l as [| a l IH]; simpl; [reflexivity | by rewrite IH]. Qed.

Lemma lookup_last {A} (l : list A) (x : A) : (l ++ [x]) !! length l = Some x.
Proof. induction l as [| a l IH]; simpl; [reflexivity | exact IH]. Qed.

(** *** Running the monad step by step *)

Lemma bind_run {A B} (m : M A) (k : A -> M B) s s1 a :
  m s = (s1, Some a) -> bind m k s = k a s1.
Proof. intros Hm. unfold bind. rewrite Hm. reflexivity. Qed.

Lemma index_run labels i x s : labels !! i = Some x -> index labels i s = (s, Some x).
Proof. intros Hi. unfold index. rewrite Hi. reflexivity. Qed.

Lemma load_resource_run s p r :
  resourceCells (mem s) !! p = Some r -> load_resource p s = (s, Some r).
Proof. intros Hr. unfold load_resource. rewrite Hr. reflexivity. Qed.

Lemma store_resource_run s p r f :
  resourceCells (mem s) !! p = Some r ->
  store_resource p f s = (set_resourceCells <[p := f r]> s, Some tt).
Proof.
  intros Hr. unfold store_resource.
  rewrite (bind_run _ _ _ _ _ (load_resource_run _ _ _ Hr)). reflexivity.
Qed.

Lemma load_dataSource_run s p d :
  dataSourceCells (mem s) !! p = Some d -> load_dataSource p s = (s, Some d).
Proof. intros Hd. unfold load_dataSource. rewrite Hd. reflexivity. Qed.

Lemma store_dataSource_run s p d f :
  dataSourceCells (mem s) !! p = Some d ->
  store_dataSource p f s = (set_dataSourceCells <[p := f d]> s, Some tt).
Proof.
  intros Hd. unfold store_dataSource.
  rewrite (bind_run _ _ _ _ _ (load_dataSource_run _ _ _ Hd)). reflexivity.
Qed.

Lemma load_moduleSource_run s p m :
  moduleSourceCells (mem s) !! p = Some m -> load_moduleSource p s = (s, Some m).
Proof. intros Hm. unfold load_moduleSource. rewrite Hm. reflexivity. Qed.

Lemma store_moduleSource_run s p m f :
  moduleSourceCells (mem s) !! p = Some m ->
  store_moduleSource p f s = (set_moduleSourceCells <[p := f m]> s, Some tt).
Proof.
  intros Hm. unfold store_moduleSource.
  rewrite (bind_run _ _ _ _ _ (load_moduleSource_run _ _ _ Hm)). reflexivity.
Qed.

(** One step of a [bind] whose first action is run by [tac]. *)
Ltac run_step tac := erewrite bind_run; [| tac].

Section Declarations.
Context `{Collaborators}.

(** A [resource] block with its two labels, in full: the state and the
    outcome. *)
Lemma resourceCase_run block diags s ty nm :
  Labels block !! 0 = Some ty ->
  Labels block !! 1 = Some nm ->
  resourceCase block diags s =
    (set_Resources
       <[resource_MapKey {| resource_Type := ty; resource_Name := nm;
                            resource_Provider := zeroProviderRef |}
         := length (resourceCells (mem s))]>
       (set_resourceCells
          (fun c => c ++ [{| resource_Type := ty; resource_Name := nm;
                             resource_Provider :=
                               from_option fst zeroProviderRef
                                 (declaredProvider
                                    (PartialContent (Block_Body block) resourceSchema).1
                                    ty) |}]) s),
     (fun res => (diags ++ (PartialContent (Block_Body block) resourceSchema).2) ++ res.2)
       <$> declaredProvider (PartialContent (Block_Body block) resourceSchema).1 ty).
Proof.
  intros Hty Hnm. unfold resourceCase, declaredProvider.
  destruct (PartialContent (Block_Body block) resourceSchema) as [content contentDiags].
  cbn [fst snd].
  run_step ltac:(apply index_run, Hty).
  run_step ltac:(apply index_run, Hnm).
  run_step ltac:(reflexivity).
  run_step ltac:(apply load_resource_run, lookup_last).
  run_step ltac:(reflexivity).
  destruct (Attributes content !! "provider") as [attr |].
  - destruct (decodeProviderAttribute attr) as [[ref aDiags] |].
    + run_step ltac:(reflexivity). cbv beta iota.
      run_step ltac:(apply store_resource_run, lookup_last).
      unfold ret, set_resourceCells, set_Resources. simpl. rewrite insert_last.
      reflexivity.
    + reflexivity.
  - run_step ltac:(apply load_resource_run, lookup_last).
    run_step ltac:(apply store_resource_run, lookup_last).
    unfold ret, set_resourceCells, set_Resources. simpl.
    rewrite insert_last, app_nil_r. reflexivity.
Qed.

(** A [data] block with its two labels, in full. *)
Lemma dataCase_run block diags s ty nm :
  Labels block !! 0 = Some ty ->
  Labels block !! 1 = Some nm ->
  dataCase block diags s =
    (set_DataSources
       <[dataSource_MapKey {| dataSource_Type := ty; dataSource_Name := nm;
                              dataSource_Provider := zeroProviderRef |}
         := length (dataSourceCells (mem s))]>
       (set_dataSourceCells
          (fun c => c ++ [{| dataSource_Type := ty; dataSource_Name := nm;
                             dataSource_Provider :=
                               from_option fst zeroProviderRef
                                 (declaredProvider
                                    (PartialContent (Block_Body block) resourceSchema).1
                                    ty) |}]) s),
     (fun res => (diags ++ (PartialContent (Block_Body block) resourceSchema).2) ++ res.2)
       <$> declaredProvider (PartialContent (Block_Body block) resourceSchema).1 ty).
Proof.
  intros Hty Hnm. unfold dataCase, declaredProvider.
  destruct (PartialContent (Block_Body block) resourceSchema) as [content contentDiags].
  cbn [fst snd].
  run_step ltac:(apply index_run, Hty).
  run_step ltac:(apply index_run, Hnm).
  run_step ltac:(reflexivity).
  run_step ltac:(apply load_dataSource_run, lookup_last).
  run_step ltac:(reflexivity).
  destruct (Attributes content !! "provider") as [attr |].
  - destruct (decodeProviderAttribute attr) as [[ref aDiags] |].
    + run_step ltac:(reflexivity). cbv beta iota.
      run_step ltac:(apply store_dataSource_run, lookup_last).
      unfold ret, set_dataSourceCells, set_DataSources. simpl. rewrite insert_last.
      reflexivity.
    + reflexivity.
  - run_step ltac:(apply load_dataSource_run, lookup_last).
    run_step ltac:(apply store_dataSource_run, lookup_last).
    unfold ret, set_dataSourceCells, set_DataSources. simpl.
    rewrite insert_last, app_nil_r. reflexivity.
Qed.

(** A [module] block with its label, in full: it always returns. *)
Lemma moduleCase_run block diags s name :
  Labels block !! 0 = Some name ->
  moduleCase block diags s =
    (set_ModuleSources
       <["module." +:+ name := length (moduleSourceCells (mem s))]>
       (set_moduleSourceCells
          (fun c => c ++ [{| ModuleSource_Source :=
                               (declaredSource
                                  (PartialContent (Block_Body block) moduleSchema).1).1;
                             ModuleSource_Name := name |}]) s),
     Some ((diags ++ (PartialContent (Block_Body block) moduleSchema).2)
             ++ (declaredSource (PartialContent (Block_Body block) moduleSchema).1).2)).
Proof.
  intros Hname. unfold moduleCase, declaredSource.
  destruct (PartialContent (Block_Body block) moduleSchema) as [content contentDiags].
  cbn [fst snd].
  run_step ltac:(apply index_run, Hname).
  run_step ltac:(reflexivity).
  run_step ltac:(apply load_moduleSource_run, lookup_last).
  run_step ltac:(reflexivity).
  destruct (Attributes content !! "source") as [attr |].
  - destruct (DecodeExpression (Expr attr)) as [source valDiags].
    run_step ltac:(apply store_moduleSource_run, lookup_last).
    unfold ret, set_moduleSourceCells, set_ModuleSources. simpl. rewrite insert_last.
    reflexivity.
  - unfold ret. cbn [fst snd]. rewrite app_nil_r. reflexivity.
Qed.

(** Reading back what a declaration stored. *)
Lemma resourceOf_declared s key r :
  resourceOf (set_Resources <[key := length (resourceCells (mem s))]>
                (set_resourceCells (fun c => c ++ [r]) s)) key = Some r.
Proof.
  unfold resourceOf. simpl. rewrite lookup_insert_eq. simpl. apply lookup_last.
Qed.

Lemma dataSourceOf_declared s key d :
  dataSourceOf (set_DataSources <[key := length (dataSourceCells (mem s))]>
                  (set_dataSourceCells (fun c => c ++ [d]) s)) key = Some d.
Proof.
  unfold dataSourceOf. simpl. rewrite lookup_insert_eq. simpl. apply lookup_last.
Qed.

Lemma moduleSourceOf_declared s key m :
  moduleSourceOf (set_ModuleSources <[key := length (moduleSourceCells (mem s))]>
                    (set_moduleSourceCells (fun c => c ++ [m]) s)) key = Some m.
Proof.
  unfold moduleSourceOf. simpl. rewrite lookup_insert_eq. simpl. apply lookup_last.
Qed.

Lemma loadBlock_resource diags block :
  Block_Type block = "resource" -> loadBlock diags block = resourceCase block diags.
Proof. intros Hty. unfold loadBlock. rewrite Hty. reflexivity. Qed.

Lemma loadBlock_data diags block :
  Block_Type block = "data" -> loadBlock diags block = dataCase block diags.
Proof. intros Hty. unfold loadBlock. rewrite Hty. reflexivity. Qed.

Lemma loadBlock_module diags block :
  Block_Type block = "module" -> loadBlock diags block = moduleCase block diags.
Proof. intros Hty. unfold loadBlock. rewrite Hty. reflexivity. Qed.

End Declarations.

(** ** Provider inference *)

Lemma inferProviderNameFromType_no_underscore typeName :
  ~ occurs "_" typeName -> inferProviderNameFromType typeName = typeName.
Proof.
  induction typeName as [| c rest IH]; simpl; intros Hno; [reflexivity |].
  destruct (Ascii.eqb_spec c "_") as [-> | Hc]; [exfalso; apply Hno; left; reflexivity |].
  rewrite IH; [reflexivity |]. intros Hocc. apply Hno. right. exact Hocc.
Qed.

Lemma inferProviderNameFromType_first_underscore pre post :
  ~ occurs "_" pre -> inferProviderNameFromType (pre +:+ String "_" post) = pre.
Proof.
  induction pre as [| c rest IH]; simpl; intros Hno; [reflexivity |].
  destruct (Ascii.eqb_spec c "_") as [-> | Hc]; [exfalso; apply Hno; left; reflexivity |].
  rewrite IH; [reflexivity |]. intros Hocc. apply Hno. right. exact Hocc.
Qed.

Section DeclarationClaims.
Context `{Collaborators}.

(** C6. Provider inference is a total function of the type string: on a
    string without [_] it returns the string, and on a string whose first
    [_] comes after [pre] it returns [pre]; so it returns [aws] on
    [aws_instance].  A [resource] or [data] block with labels [type] and
    [name] and no [provider] attribute gets the provider reference with the
    inferred local name and the empty alias, and its processing returns,
    adding no diagnostic to those of the schema filter. *)
Theorem provider_is_inferred_from_type :
  (forall typeName,
     ~ occurs "_" typeName -> inferProviderNameFromType typeName = typeName) /\
  (forall pre post,
     ~ occurs "_" pre -> inferProviderNameFromType (pre +:+ String "_" post) = pre) /\
  inferProviderNameFromType "aws_instance" = "aws" /\
  (forall diags block s typeName name,
     Block_Type block = "resource" ->
     Labels block = [typeName; name] ->
     Attributes (PartialContent (Block_Body block) resourceSchema).1 !! "provider" = None ->
     resourceOf (loadBlock diags block s).1
       (resource_MapKey {| resource_Type := typeName; resource_Name := name;
                           resource_Provider := zeroProviderRef |}) =
       Some {| resource_Type := typeName; resource_Name := name;
               resource_Provider :=
                 {| LocalName := inferProviderNameFromType typeName;
                    ProviderRef_Alias := "" |} |} /\
     (loadBlock diags block s).2 =
       Some (diags ++ (PartialContent (Block_Body block) resourceSchema).2)) /\
  (forall diags block s typeName name,
     Block_Type block = "data" ->
     Labels block = [typeName; name] ->
     Attributes (PartialContent (Block_Body block) resourceSchema).1 !! "provider" = None ->
     dataSourceOf (loadBlock diags block s).1
       (dataSource_MapKey {| dataSource_Type := typeName; dataSource_Name := name;
                             dataSource_Provider := zeroProviderRef |}) =
       Some {| dataSource_Type := typeName; dataSource_Name := name;
               dataSource_Provider :=
                 {| LocalName := inferProviderNameFromType typeName;
                    ProviderRef_Alias := "" |} |} /\
     (loadBlock diags block s).2 =
       Some (diags ++ (PartialContent (Block_Body block) resourceSchema).2)).
Proof.
  split; [exact inferProviderNameFromType_no_underscore |].
  split; [exact inferProviderNameFromType_first_underscore |].
  split; [reflexivity |].
  split.
  - intros diags block s typeName name Hty Hlabels Hattr.
    rewrite (loadBlock_resource _ _ Hty).
    rewrite (resourceCase_run block diags s typeName name)
      by (rewrite Hlabels; reflexivity).
    unfold declaredProvider. rewrite Hattr. cbn [fst snd from_option fmap option_fmap option_map].
    rewrite resourceOf_declared, app_nil_r. split; reflexivity.
  - intros diags block s typeName name Hty Hlabels Hattr.
    rewrite (loadBlock_data _ _ Hty).
    rewrite (dataCase_run block diags s typeName name)
      by (rewrite Hlabels; reflexivity).
    unfold declaredProvider. rewrite Hattr. cbn [fst snd from_option fmap option_fmap option_map].
    rewrite dataSourceOf_declared, app_nil_r. split; reflexivity.
Qed.

(** C7. Whatever the accumulator holds, in particular a record stored
    under the same key by an earlier declaration with the same type and
    name, in this call or in an earlier one: after a [resource] block with
    labels [type] and [name] the key of that pair gives the record built
    from this block, with the provider its [provider] attribute resolves
    to, or the inferred one; and the diagnostics returned are those given,
    those of the schema filter and those of the resolution of the
    attribute, nothing else.  When the resolution panics the record is the
    one with the zero provider reference.  The same holds for [data]
    blocks, and for [module] blocks with their name and source. *)
Theorem redeclaration_overwrites_without_diagnostic :
  (forall diags block s type name,
     Block_Type block = "resource" ->
     Labels block = [type; name] ->
     resourceOf (loadBlock diags block s).1
       (resource_MapKey {| resource_Type := type; resource_Name := name;
                           resource_Provider := zeroProviderRef |}) =
       Some {| resource_Type := type; resource_Name := name;
               resource_Provider :=
                 from_option fst zeroProviderRef
                   (declaredProvider
                      (PartialContent (Block_Body block) resourceSchema).1 type) |} /\
     (loadBlock diags block s).2 =
       (fun res => (diags ++ (PartialContent (Block_Body block) resourceSchema).2) ++ res.2)
         <$> declaredProvider (PartialContent (Block_Body block) resourceSchema).1 type) /\
  (forall diags block s type name,
     Block_Type block = "data" ->
     Labels block = [type; name] ->
     dataSourceOf (loadBlock diags block s).1
       (dataSource_MapKey {| dataSource_Type := type; dataSource_Name := name;
                             dataSource_Provider := zeroProviderRef |}) =
       Some {| dataSource_Type := type; dataSource_Name := name;
               dataSource_Provider :=
                 from_option fst zeroProviderRef
                   (declaredProvider
                      (PartialContent (Block_Body block) resourceSchema).1 type) |} /\
     (loadBlock diags block s).2 =
       (fun res => (diags ++ (PartialContent (Block_Body block) resourceSchema).2) ++ res.2)
         <$> declaredProvider (PartialContent (Block_Body block) resourceSchema).1 type) /\
  (forall diags block s name,
     Block_Type block = "module" ->
     Labels block = [name] ->
     moduleSourceOf (loadBlock diags block s).1 ("module." +:+ name) =
       Some {| ModuleSource_Source :=
                 (declaredSource (PartialContent (Block_Body block) moduleSchema).1).1;
               ModuleSource_Name := name |} /\
     (loadBlock diags block s).2 =
       Some ((diags ++ (PartialContent (Block_Body block) moduleSchema).2)
               ++ (declaredSource (PartialContent (Block_Body block) moduleSchema).1).2)).
Proof.
  split; [| split].
  - intros diags block s type name Hty Hlabels.
    rewrite (loadBlock_resource _ _ Hty).
    rewrite (resourceCase_run block diags s type name) by (rewrite Hlabels; reflexivity).
    cbn [fst snd]. rewrite resourceOf_declared. split; reflexivity.
  - intros diags block s type name Hty Hlabels.
    rewrite (loadBlock_data _ _ Hty).
    rewrite (dataCase_run block diags s type name) by (rewrite Hlabels; reflexivity).
    cbn [fst snd]. rewrite dataSourceOf_declared. split; reflexivity.
  - intros diags block s name Hty Hlabels.
    rewrite (loadBlock_module _ _ Hty).
    rewrite (moduleCase_run block diags s name) by (rewrite Hlabels; reflexivity).
    cbn [fst snd]. rewrite moduleSourceOf_declared. split; reflexivity.
Qed.

(** A [module] block whose first label is [name] is always recorded: its
    processing returns, and the key ["module." ++ name] then gives a record
    with that name.  Without a [source] attribute the source is empty.
    With one, the diagnostics of its decoding are appended and the source
    is what [DecodeExpression] left in [ms.Source], whether or not those
    diagnostics hold an error: the call at [source] has no [HasErrors]
    guard. *)
Lemma moduleCase_stores_decoded_source (diags : Diagnostics) (block : Block) (s : State)
    (name : string) :
  Labels block !! 0 = Some name ->
  exists s' diags',
    moduleCase block diags s = (s', Some diags') /\
    match Attributes (PartialContent (Block_Body block) moduleSchema).1 !! "source" with
    | None =>
        diags' = diags ++ (PartialContent (Block_Body block) moduleSchema).2 /\
        moduleSourceOf s' ("module." +:+ name) =
          Some {| ModuleSource_Source := ""; ModuleSource_Name := name |}
    | Some attr =>
        diags' = (diags ++ (PartialContent (Block_Body block) moduleSchema).2)
                   ++ (DecodeExpression (Expr attr)).2 /\
        moduleSourceOf s' ("module." +:+ name) =
          Some {| ModuleSource_Source := (DecodeExpression (Expr attr)).1;
                  ModuleSource_Name := name |}
    end.
Proof.
  intros Hname.
  eexists _, _. split; [apply (moduleCase_run _ _ _ _ Hname) |].
  rewrite moduleSourceOf_declared. unfold declaredSource.
  destruct (Attributes (PartialContent (Block_Body block) moduleSchema).1 !! "source")
    as [attr |] eqn:Hattr.
  - split; reflexivity.
  - cbn [fst snd]. rewrite app_nil_r. split; reflexivity.
Qed.

End DeclarationClaims.

(** C6 on an example: [resource "aws_instance" "web" {}] on a fresh
    accumulator. *)
Lemma provider_is_inferred_from_type_witness :
  resourceOf (loadBlock [] Example.web_plain newState).1 "aws_instance.web" =
    Some {| resource_Type := "aws_instance"; resource_Name := "web";
            resource_Provider := {| LocalName := "aws"; ProviderRef_Alias := "" |} |} /\
  (loadBlock [] Example.web_plain newState).2 = Some [].
Proof.
  refine (proj1 (proj2 (proj2 (proj2 provider_is_inferred_from_type)))
            [] Example.web_plain newState "aws_instance" "web" _ _ _).
  - reflexivity.
  - reflexivity.
  - vm_compute. reflexivity.
Defined.

(** C7 on an example: [aws_instance.web] declared with [provider =
    aws.east] and then again without a provider; [module.vpc] declared with
    a source and then again without one. *)
Lemma redeclaration_overwrites_without_diagnostic_witness :
  (resourceOf (loadBlock [] Example.web_in_east newState).1 "aws_instance.web" =
     Some {| resource_Type := "aws_instance"; resource_Name := "web";
             resource_Provider := {| LocalName := "aws"; ProviderRef_Alias := "east" |} |} /\
   (loadBlock [] Example.web_in_east newState).2 = Some []) /\
  (resourceOf
     (loadBlock [] Example.web_plain (loadBlock [] Example.web_in_east newState).1).1
     "aws_instance.web" =
     Some {| resource_Type := "aws_instance"; resource_Name := "web";
             resource_Provider := {| LocalName := "aws"; ProviderRef_Alias := "" |} |} /\
   (loadBlock [] Example.web_plain (loadBlock [] Example.web_in_east newState).1).2 =
     Some []) /\
  (dataSourceOf
     (loadBlock [] Example.ubuntu_plain (loadBlock [] Example.ubuntu_in_east newState).1).1
     "data.aws_ami.ubuntu" =
     Some {| dataSource_Type := "aws_ami"; dataSource_Name := "ubuntu";
             dataSource_Provider := {| LocalName := "aws"; ProviderRef_Alias := "" |} |} /\
   (loadBlock [] Example.ubuntu_plain (loadBlock [] Example.ubuntu_in_east newState).1).2 =
     Some []) /\
  (moduleSourceOf
     (loadBlock [] Example.vpc_plain (loadBlock [] Example.vpc_local newState).1).1
     "module.vpc" =
     Some {| ModuleSource_Source := ""; ModuleSource_Name := "vpc" |} /\
   (loadBlock [] Example.vpc_plain (loadBlock [] Example.vpc_local newState).1).2 =
     Some []).
Proof.
  split; [| split; [| split]].
  - refine (proj1 redeclaration_overwrites_without_diagnostic
              [] Example.web_in_east newState "aws_instance" "web" _ _);
      reflexivity.
  - refine (proj1 redeclaration_overwrites_without_diagnostic
              [] Example.web_plain (loadBlock [] Example.web_in_east newState).1
              "aws_instance" "web" _ _);
      reflexivity.
  - refine (proj1 (proj2 redeclaration_overwrites_without_diagnostic)
              [] Example.ubuntu_plain (loadBlock [] Example.ubuntu_in_east newState).1
              "aws_ami" "ubuntu" _ _);
      reflexivity.
  - refine (proj2 (proj2 redeclaration_overwrites_without_diagnostic)
              [] Example.vpc_plain (loadBlock [] Example.vpc_local newState).1
              "vpc" _ _);
      reflexivity.
Defined.

(** The template ["./vpc${null}"]: it is no traversal, and its decoding
    writes the string evaluated so far, ["./vpc"], and reports the null
    interpolation as an error. *)
Definition null_interpolation : Expression :=
  {| Expression_Range := Example.at_line "main.tf" 61;
     AbsTraversalForExpr :=
       ([], [Example.error "Invalid expression" (Example.at_line "main.tf" 61)]);
     DecodeExpression :=
       ("./vpc", [Example.error "Invalid template interpolation value"
                    (Example.at_line "main.tf" 61)]) |}.

(** [module "vpc" { source = "./vpc${null}" }] *)
Definition vpc_null_interpolation : Block :=
  Example.block "module" ["vpc"] (Example.body [("source", null_interpolation)] []) 60.

(** C9. The record of a module call does not keep an empty source when
    the decoding of its [source] fails after writing: on
    [module "vpc" { source = "./vpc${null}" }] and a fresh accumulator the
    processing returns exactly the error of the decoding, and the record
    stored under ["module.vpc"] has the source ["./vpc"].  (The record is
    stored with the name [vpc], as for every module block.) *)
Theorem module_source_is_written_despite_errors :
  exists s' diags',
    moduleCase vpc_null_interpolation [] newState = (s', Some diags') /\
    diags' = [Example.error "Invalid template interpolation value"
                (Example.at_line "main.tf" 61)] /\
    HasErrors diags' = true /\
    moduleSourceOf s' "module.vpc" =
      Some {| ModuleSource_Source := "./vpc"; ModuleSource_Name := "vpc" |}.
Proof.
  assert (Hattr : Attributes (PartialContent (Block_Body vpc_null_interpolation)
                                moduleSchema).1 !! "source" =
                  Some {| Attribute_Name := "source"; Expr := null_interpolation |})
    by (vm_compute; reflexivity).
  destruct (moduleCase_stores_decoded_source [] vpc_null_interpolation newState "vpc"
              eq_refl) as (s' & diags' & Hrun & Hsource).
  rewrite Hattr in Hsource. destruct Hsource as (-> & Hstored).
  eexists s', _. split; [exact Hrun |]. split; [reflexivity |].
  split; [reflexivity | exact Hstored].
Qed.

(** ** The decoder returns on what the schema filter gives it *)

Lemma wellFormed_newState : wellFormed newState.
Proof. intros name p Hp. simpl in Hp. rewrite lookup_empty in Hp. discriminate. Qed.

Lemma wellFormed_frame s s' :
  ProviderRequirements (acc s') = ProviderRequirements (acc s) ->
  length (requirementCells (mem s')) = length (requirementCells (mem s)) ->
  wellFormed s -> wellFormed s'.
Proof. intros Hmap Hlen Hwf name p. rewrite Hmap, Hlen. apply Hwf. Qed.

Lemma wellFormed_new_requirement s name r :
  wellFormed s ->
  wellFormed (set_ProviderRequirements <[name := length (requirementCells (mem s))]>
                (set_requirementCells (fun c => c ++ [r]) s)).
Proof.
  intros Hwf n p. simpl. rewrite length_app. simpl.
  destruct (decide (name = n)) as [-> | Hne].
  - rewrite lookup_insert_eq. intros [= <-]. lia.
  - rewrite lookup_insert_ne by exact Hne. intros Hp. specialize (Hwf _ _ Hp). lia.
Qed.

Lemma returns_ret {A} (P : State -> Prop) (a : A) : returns P (ret a).
Proof. intros s HP. split; [eexists; reflexivity | exact HP]. Qed.

Lemma returns_bind {A B} (P : State -> Prop) (m : M A) (k : A -> M B) :
  returns P m -> (forall a, returns P (k a)) -> returns P (bind m k).
Proof.
  intros Hm Hk s HP. unfold bind. destruct (Hm s HP) as [[a Ha] HP1].
  destruct (m s) as [s1 o]. simpl in *. subst o. apply Hk, HP1.
Qed.

Lemma returns_foldM {A B} (P : State -> Prop) (f : B -> A -> M B) (l : list A) :
  Forall (fun x => forall b, returns P (f b x)) l -> forall b, returns P (foldM f b l).
Proof.
  induction 1 as [| x l Hx _ IH]; intros b; simpl.
  - apply returns_ret.
  - apply returns_bind; [apply Hx | intros b'; apply IH].
Qed.

Section Returns.
Context `{Collaborators}.

Lemma returns_mergeRequirement innerBlock diags entry :
  returns wellFormed (mergeRequirement innerBlock diags entry).
Proof.
  destruct entry as [name req]. intros s Hwf.
  destruct (ProviderRequirements (acc s) !! name) as [p |] eqn:Hp.
  - destruct (lookup_lt_is_Some_2 _ _ (Hwf _ _ Hp)) as [r Hr].
    rewrite (mergeRequirement_existing _ _ _ _ _ _ _ Hp Hr). cbn zeta. simpl.
    split; [eexists; reflexivity |].
    eapply wellFormed_frame; [| | exact Hwf]; simpl; [reflexivity | apply length_insert].
  - unfold mergeRequirement, bind, gets. rewrite Hp. simpl.
    split; [eexists; reflexivity | apply wellFormed_new_requirement, Hwf].
Qed.

Lemma returns_loadInnerBlock diags innerBlock :
  returns wellFormed (loadInnerBlock diags innerBlock).
Proof.
  unfold loadInnerBlock. destruct (decide _); [| apply returns_ret].
  destruct (decodeRequiredProvidersBlock innerBlock) as [reqs reqsDiags].
  apply returns_foldM. apply Forall_forall. intros entry _ d.
  apply returns_mergeRequirement.
Qed.

Lemma returns_terraformCase block diags : returns wellFormed (terraformCase block diags).
Proof.
  unfold terraformCase.
  destruct (PartialContent (Block_Body block) terraformBlockSchema)
    as [content contentDiags].
  apply returns_bind.
  - destruct (Attributes content !! "required_version") as [attr |];
      [| apply returns_ret].
    destruct (DecodeExpression (Expr attr)) as [version valDiags].
    destruct (negb (HasErrors valDiags)); [| apply returns_ret].
    intros s Hwf. split; [eexists; reflexivity |].
    eapply wellFormed_frame; [| | exact Hwf]; reflexivity.
  - intros d. apply returns_foldM. apply Forall_forall. intros b _ d'.
    apply returns_loadInnerBlock.
Qed.

Lemma returns_providerCase block diags name :
  Labels block !! 0 = Some name -> returns wellFormed (providerCase block diags).
Proof.
  intros Hname s Hwf. unfold providerCase.
  destruct (PartialContent (Block_Body block) providerConfigSchema)
    as [content contentDiags].
  run_step ltac:(apply index_run, Hname).
  run_step ltac:(reflexivity).
  (* the entry of [name], there or made *)
  assert (Hensure : exists s1 p r,
            (match ProviderRequirements (acc s) !! name with
             | Some _ => ret tt
             | None =>
                 p <- new_requirement {| providerRequirement_Source := "";
                                         VersionConstraints := [] |} ;;
                 modify (set_ProviderRequirements <[name := p]>)
             end) s = (s1, Some tt) /\
            wellFormed s1 /\
            ProviderRequirements (acc s1) !! name = Some p /\
            requirementCells (mem s1) !! p = Some r).
  { destruct (ProviderRequirements (acc s) !! name) as [p |] eqn:Hp.
    - destruct (lookup_lt_is_Some_2 _ _ (Hwf _ _ Hp)) as [r Hr].
      exists s, p, r. repeat split; assumption.
    - eexists _, _, _. split; [reflexivity |].
      split; [apply wellFormed_new_requirement, Hwf |].
      split; [simpl; apply lookup_insert_eq | simpl; apply lookup_last]. }
  destruct Hensure as (s1 & p & r & Hrun1 & Hwf1 & Hp1 & Hr1).
  run_step ltac:(exact Hrun1).
  (* the [version] attribute *)
  assert (Hversion : exists s2 d2,
            (match Attributes content !! "version" with
             | Some attr =>
                 let '(version, valDiags) := DecodeExpression (Expr attr) in
                 let diags0 := (diags ++ contentDiags) ++ valDiags in
                 if negb (HasErrors valDiags)
                 then append_VersionConstraints name [version] ;;; ret diags0
                 else ret diags0
             | None => ret (diags ++ contentDiags)
             end) s1 = (s2, Some d2) /\ wellFormed s2).
  { destruct (Attributes content !! "version") as [attr |];
      [| eexists _, _; split; [reflexivity | exact Hwf1]].
    destruct (DecodeExpression (Expr attr)) as [version valDiags]. cbv zeta.
    destruct (negb (HasErrors valDiags));
      [| eexists _, _; split; [reflexivity | exact Hwf1]].
    eexists _, _. split.
    - run_step ltac:(apply (append_VersionConstraints_run _ _ _ _ _ Hp1 Hr1)).
      reflexivity.
    - eapply wellFormed_frame; [| | exact Hwf1]; simpl;
        [reflexivity | apply length_insert]. }
  destruct Hversion as (s2 & d2 & Hrun2 & Hwf2).
  run_step ltac:(exact Hrun2).
  destruct (match Attributes content !! "alias" with
            | Some attr => _ | None => _ end) as [[providerKey alias] d3].
  split; [eexists; reflexivity |].
  eapply wellFormed_frame; [| | exact Hwf2]; reflexivity.
Qed.

Lemma decodeProviderAttribute_returns attr :
  providerTraversal attr = [] \/ is_Some (RootName (providerTraversal attr)) ->
  is_Some (decodeProviderAttribute attr).
Proof.
  intros [Hnil | [name Hroot]].
  - rewrite (decodeProviderAttribute_empty _ Hnil). eexists; reflexivity.
  - destruct (providerTraversal attr) as [| [n rng | | |] rest] eqn:Ht;
      try discriminate.
    rewrite (decodeProviderAttribute_rooted _ _ _ _ Ht). eexists; reflexivity.
Qed.

Lemma declaredProvider_returns block ty :
  (forall attr,
     Attributes (PartialContent (Block_Body block) resourceSchema).1 !! "provider"
       = Some attr ->
     providerTraversal attr = [] \/ is_Some (RootName (providerTraversal attr))) ->
  is_Some (declaredProvider (PartialContent (Block_Body block) resourceSchema).1 ty).
Proof.
  intros Habs. unfold declaredProvider.
  destruct (Attributes _ !! "provider") as [attr |];
    [apply decodeProviderAttribute_returns, Habs; reflexivity | eexists; reflexivity].
Qed.

Lemma returns_loadBlock diags block :
  wellShaped block -> returns wellFormed (loadBlock diags block).
Proof.
  intros [Hone Htwo]. unfold loadBlock.
  destruct (decide (Block_Type block = "terraform")); [apply returns_terraformCase |].
  destruct (decide (Block_Type block = "provider")) as [Hty |].
  { destruct (Hone (or_introl Hty)) as [name Hname].
    eapply returns_providerCase, Hname. }
  destruct (decide (Block_Type block = "data")) as [Hty |].
  { destruct (Htwo (or_introl Hty)) as ([ty Hl0] & [nm Hl1] & Habs).
    intros s Hwf. rewrite (dataCase_run _ _ _ _ _ Hl0 Hl1). simpl.
    destruct (declaredProvider_returns block ty Habs) as [res ->].
    split; [eexists; reflexivity |].
    eapply wellFormed_frame; [| | exact Hwf]; reflexivity. }
  destruct (decide (Block_Type block = "resource")) as [Hty |].
  { destruct (Htwo (or_intror Hty)) as ([ty Hl0] & [nm Hl1] & Habs).
    intros s Hwf. rewrite (resourceCase_run _ _ _ _ _ Hl0 Hl1). simpl.
    destruct (declaredProvider_returns block ty Habs) as [res ->].
    split; [eexists; reflexivity |].
    eapply wellFormed_frame; [| | exact Hwf]; reflexivity. }
  destruct (decide (Block_Type block = "module")) as [Hty |].
  { destruct (Hone (or_intror Hty)) as [name Hname].
    intros s Hwf. rewrite (moduleCase_run _ _ _ _ Hname). simpl.
    split; [eexists; reflexivity |].
    eapply wellFormed_frame; [| | exact Hwf]; reflexivity. }
  apply returns_ret.
Qed.

(** On a well-formed accumulator and a file whose blocks are well shaped,
    [loadModuleFromFile] returns, in a well-formed accumulator. *)
Lemma loadModuleFromFile_returns file :
  Forall wellShaped (Blocks (PartialContent (File_Body file) rootSchema).1) ->
  returns wellFormed (loadModuleFromFile file).
Proof.
  intros Hshape. unfold loadModuleFromFile.
  destruct (PartialContent (File_Body file) rootSchema) as [content contentDiags].
  apply returns_foldM. simpl in Hshape.
  eapply Forall_impl; [exact Hshape |]. intros b Hb d. apply returns_loadBlock, Hb.
Qed.

Lemma loadModuleFromFiles_returns files :
  Forall (fun file =>
            Forall wellShaped (Blocks (PartialContent (File_Body file) rootSchema).1))
         files ->
  returns wellFormed (loadModuleFromFiles files).
Proof.
  induction 1 as [| file files Hfile _ IH]; simpl.
  - apply returns_ret.
  - apply returns_bind; [apply loadModuleFromFile_returns, Hfile |]. intros d.
    apply returns_bind; [exact IH |]. intros ds. apply returns_ret.
Qed.

End Returns.

(** ** Every declared provider becomes a requirement *)

Section RequiredProviders.
Context `{Collaborators}.

Lemma mergeRequirement_records innerBlock diags name req s :
  name ∈ dom (ProviderRequirements (acc (mergeRequirement innerBlock diags (name, req) s).1)).
Proof.
  destruct (ProviderRequirements (acc s) !! name) as [p |] eqn:Hp.
  - assert (Hin : name ∈ dom (ProviderRequirements (acc s)))
      by (apply elem_of_dom; eauto).
    destruct (grows_loadBlock_merge innerBlock diags (name, req) s)
      as (_ & Hsub & _).
    apply subseteq_dom in Hsub. apply Hsub, Hin.
  - unfold mergeRequirement, bind, gets. rewrite Hp. simpl.
    apply elem_of_dom. rewrite lookup_insert_eq. eauto.
Qed.

Lemma mergeRequirements_record innerBlock name req entries : forall diags s,
  (name, req) ∈ entries ->
  wellFormed s ->
  name ∈ dom (ProviderRequirements
                (acc (foldM (mergeRequirement innerBlock) diags entries s).1)).
Proof.
  induction entries as [| entry entries IH]; intros diags s Hin Hwf.
  - inversion Hin.
  - simpl. unfold bind.
    destruct (returns_mergeRequirement innerBlock diags entry s Hwf) as [[d Hd] Hwf1].
    pose proof (mergeRequirement_records innerBlock diags name req s) as Hrec.
    destruct (mergeRequirement innerBlock diags entry s) as [s1 o] eqn:Hstep.
    simpl in Hd, Hwf1. subst o.
    apply elem_of_cons in Hin. destruct Hin as [<- | Hin].
    + rewrite Hstep in Hrec. simpl in Hrec.
      assert (Hgrow : grows s1 (foldM (mergeRequirement innerBlock) d entries s1).1).
      { apply preserves_foldM; [grows_side.. |]. intros d' e.
        apply grows_loadBlock_merge. }
      destruct Hgrow as (_ & Hsub & _). apply subseteq_dom in Hsub. apply Hsub, Hrec.
    + apply IH; assumption.
Qed.

(** After a [required_providers] block, on a well-formed accumulator, every
    provider the block names is a key of the requirements, in whatever
    order [range] visited the fragments. *)
Lemma required_providers_are_recorded innerBlock diags s name req :
  wellFormed s ->
  Block_Type innerBlock = "required_providers" ->
  (decodeRequiredProvidersBlock innerBlock).1 !! name = Some req ->
  name ∈ dom (ProviderRequirements (acc (loadInnerBlock diags innerBlock s).1)).
Proof.
  intros Hwf Hty Hreq. unfold loadInnerBlock. rewrite decide_True by exact Hty.
  destruct (decodeRequiredProvidersBlock innerBlock) as [reqs reqsDiags].
  apply (mergeRequirements_record _ _ req); [| exact Hwf].
  rewrite (rangeOrder_enumerates reqs). apply elem_of_map_to_list, Hreq.
Qed.

End RequiredProviders.

(** ** The parser of the examples reads dotted names *)

Lemma splitOnDot_dotless name :
  ~ occurs "." name -> Example.splitOnDot name = [name].
Proof.
  induction name as [| c rest IH]; simpl; intros Hno; [reflexivity |].
  destruct (Ascii.eqb_spec c ".") as [-> | _]; [exfalso; apply Hno; left; reflexivity |].
  rewrite IH; [reflexivity |]. intros Hocc. apply Hno. right. exact Hocc.
Qed.

Lemma splitOnDot_first name rest :
  ~ occurs "." name ->
  Example.splitOnDot (name +:+ String "." rest) = name :: Example.splitOnDot rest.
Proof.
  induction name as [| c name' IH]; simpl; intros Hno; [reflexivity |].
  destruct (Ascii.eqb_spec c ".") as [-> | _]; [exfalso; apply Hno; left; reflexivity |].
  rewrite IH; [reflexivity |]. intros Hocc. apply Hno. right. exact Hocc.
Qed.

Lemma splitOnDot_dotted names :
  names <> [] ->
  Forall (fun name => ~ occurs "." name) names ->
  Example.splitOnDot (dotted names) = names.
Proof.
  intros Hne Hdots. induction Hdots as [| name names Hname Hnames IH]; [congruence |].
  destruct names as [| name' names'].
  - simpl. apply splitOnDot_dotless, Hname.
  - change (dotted (name :: name' :: names'))
      with (name +:+ String "." (dotted (name' :: names'))).
    rewrite splitOnDot_first by exact Hname. rewrite IH by discriminate. reflexivity.
Qed.

Lemma segmentsTraversal_spells names :
  names <> [] -> spells names (Example.segmentsTraversal names).
Proof.
  destruct names as [| root attrs]; [congruence |]. intros _. simpl.
  split; [reflexivity |]. induction attrs as [| a attrs IH]; simpl; auto.
Qed.

(** The parser of the examples honours the contract C3 asks of
    [ParseTraversalAbs], on every dotted sequence of names. *)
Lemma parseDotted_spells names :
  names <> [] ->
  Forall (fun name => ~ occurs "." name /\ Example.startsLikeIdentifier name = true) names ->
  exists t, Example.parseDotted (dotted names) = (t, []) /\ spells names t.
Proof.
  intros Hne Hnames. exists (Example.segmentsTraversal names).
  split; [| apply segmentsTraversal_spells, Hne].
  unfold Example.parseDotted.
  rewrite splitOnDot_dotted
    by first [assumption | eapply Forall_impl; [exact Hnames | intros ? [? _]; assumption]].
  assert (Hall : forallb Example.startsLikeIdentifier names = true).
  { apply forallb_forall. intros name Hin. apply list_elem_of_In in Hin.
    rewrite Forall_forall in Hnames. apply (Hnames name Hin). }
  rewrite Hall. reflexivity.
Qed.

(** * Further properties of the decoder *)

(** ** Keys of module calls *)

(** X8. Two module calls have the same map key exactly when they have the
    same name: the key identifies the name, and the source plays no part
    in it. *)
Theorem ModuleSource_MapKey_identifies_name (m1 m2 : ModuleSource) :
  ModuleSource_MapKey m1 = ModuleSource_MapKey m2 <->
  ModuleSource_Name m1 = ModuleSource_Name m2.
Proof.
  unfold ModuleSource_MapKey. split; [| intros ->; reflexivity].
  intros Hkey. simplify_eq. assumption.
Qed.

(** ** Blocks the dispatcher does not know, and blocks without labels *)

(** The block types of the [switch]. *)
Definition dispatchedTypes : list string :=
  ["terraform"; "provider"; "data"; "resource"; "module"].

Section Dispatcher.
Context `{Collaborators}.

Lemma loadBlock_other diags block s :
  Block_Type block ∉ dispatchedTypes -> loadBlock diags block s = (s, Some diags).
Proof.
  intros Hnot. unfold loadBlock.
  repeat (destruct (decide _) as [Hty | _];
          [exfalso; apply Hnot; rewrite Hty; unfold dispatchedTypes; set_solver |]).
  reflexivity.
Qed.

Lemma loadBlocks_other blocks : forall diags s,
  Forall (fun block => Block_Type block ∉ dispatchedTypes) blocks ->
  foldM loadBlock diags blocks s = (s, Some diags).
Proof.
  induction blocks as [| b blocks IH]; intros diags s Hall; [reflexivity |].
  inversion Hall as [| ? ? Hb Hrest]; subst. simpl.
  rewrite (bind_run _ _ _ _ _ (loadBlock_other diags b s Hb)). apply IH, Hrest.
Qed.

(** X6. A file whose top-level blocks all have a type other than
    [terraform], [provider], [data], [resource] and [module] (in
    particular a file without blocks) leaves the accumulator exactly as it
    was, and the call returns just the diagnostics of the schema filter. *)
Theorem unknown_blocks_are_skipped (file : File) (s : State) :
  Forall (fun block => Block_Type block ∉ dispatchedTypes)
         (Blocks (PartialContent (File_Body file) rootSchema).1) ->
  loadModuleFromFile file s = (s, Some (PartialContent (File_Body file) rootSchema).2).
Proof.
  intros Hall. unfold loadModuleFromFile.
  destruct (PartialContent (File_Body file) rootSchema) as [content contentDiags].
  apply loadBlocks_other, Hall.
Qed.

Lemma index_panics labels i s : labels !! i = None -> index labels i s = (s, None).
Proof. intros Hi. unfold index. rewrite Hi. reflexivity. Qed.

Lemma bind_panics {A B} (m : M A) (k : A -> M B) s s1 :
  m s = (s1, None) -> bind m k s = (s1, None).
Proof. intros Hm. unfold bind. rewrite Hm. reflexivity. Qed.

Lemma loadBlock_provider diags block :
  Block_Type block = "provider" -> loadBlock diags block = providerCase block diags.
Proof. intros Hty. unfold loadBlock. rewrite Hty. reflexivity. Qed.

Lemma loadBlock_missing_label diags block s :
  ((Block_Type block = "provider" \/ Block_Type block = "module") /\
   length (Labels block) < 1) \/
  ((Block_Type block = "data" \/ Block_Type block = "resource") /\
   length (Labels block) < 2) ->
  loadBlock diags block s = (s, None).
Proof.
  intros [[Hty Hlen] | [Hty Hlen]].
  - assert (H0 : Labels block !! 0 = None) by (apply lookup_ge_None; lia).
    destruct Hty as [Hty | Hty].
    + rewrite (loadBlock_provider _ _ Hty). unfold providerCase.
      destruct (PartialContent _ _) as [content contentDiags].
      apply bind_panics, index_panics, H0.
    + rewrite (loadBlock_module _ _ Hty). unfold moduleCase.
      destruct (PartialContent _ _) as [content contentDiags].
      apply bind_panics, index_panics, H0.
  - assert (H1 : Labels block !! 1 = None) by (apply lookup_ge_None; lia).
    destruct Hty as [Hty | Hty];
      [rewrite (loadBlock_data _ _ Hty); unfold dataCase
      | rewrite (loadBlock_resource _ _ Hty); unfold resourceCase];
      destruct (PartialContent _ _) as [content contentDiags];
      (destruct (Labels block !! 0) as [ty |] eqn:H0;
       [ rewrite (bind_run _ _ _ _ _ (index_run _ _ _ s H0));
         apply bind_panics, index_panics, H1
       | apply bind_panics, index_panics, H0 ]).
Qed.

(** X7. Indexing the labels comes before every write: a [provider] or
    [module] block without a label, and a [data] or [resource] block with
    fewer than two labels, make the dispatcher panic with the accumulator
    exactly as it was; and the panic ends the call, the blocks that follow
    are not processed. *)
Theorem missing_label_panics_before_any_write
    (diags : Diagnostics) (block : Block) (rest : list Block) (s : State) :
  ((Block_Type block = "provider" \/ Block_Type block = "module") /\
   length (Labels block) < 1) \/
  ((Block_Type block = "data" \/ Block_Type block = "resource") /\
   length (Labels block) < 2) ->
  loadBlock diags block s = (s, None) /\
  foldM loadBlock diags (block :: rest) s = (s, None).
Proof.
  intros Hbad. pose proof (loadBlock_missing_label diags block s Hbad) as Hpanic.
  split; [exact Hpanic |]. simpl. apply bind_panics, Hpanic.
Qed.

End Dispatcher.

(** ** Provider blocks *)

(** The requirement a [provider] block makes when the name has none. *)
Definition unversioned : providerRequirement :=
  {| providerRequirement_Source := ""; VersionConstraints := [] |}.

(** What the [version] attribute of a [provider] block contributes: the
    constraint to append, if the attribute is there and decodes without
    errors, and the diagnostics of the decoding. *)
Definition declaredVersion (content : BodyContent) : list string * Diagnostics :=
  match Attributes content !! "version" with
  | Some attr =>
      (if HasErrors (DecodeExpression (Expr attr)).2 then []
       else [(DecodeExpression (Expr attr)).1],
       (DecodeExpression (Expr attr)).2)
  | None => ([], [])
  end.

(** The content of the variable [alias] after the [alias] attribute, if
    any, was decoded into it, and the diagnostics of the decoding. *)
Definition declaredAlias (content : BodyContent) : string * Diagnostics :=
  match Attributes content !! "alias" with
  | Some attr => DecodeExpression (Expr attr)
  | None => ("", [])
  end.

(** The key a provider configuration is stored under: [name.alias] when
    the alias decoded without errors to a non-empty string, [name]
    otherwise. *)
Definition providerConfigKey (name : string) (content : BodyContent) : string :=
  if negb (HasErrors (declaredAlias content).2)
     && negb (bool_decide ((declaredAlias content).1 = ""))
  then name +:+ "." +:+ (declaredAlias content).1
  else name.

Section ProviderBlocks.
Context `{Collaborators}.

(** The first statement of the [provider] case: the entry of [name] is
    there afterwards, made if it was missing. *)
Lemma ensure_requirement_run s name :
  wellFormed s ->
  exists s1 p,
    (match ProviderRequirements (acc s) !! name with
     | Some _ => ret tt
     | None =>
         p <- new_requirement {| providerRequirement_Source := "";
                                 VersionConstraints := [] |} ;;
         modify (set_ProviderRequirements <[name := p]>)
     end) s = (s1, Some tt) /\
    wellFormed s1 /\
    ProviderRequirements (acc s1) !! name = Some p /\
    requirementCells (mem s1) !! p = Some (default unversioned (requirementOf s name)) /\
    ProviderConfigs (acc s1) = ProviderConfigs (acc s).
Proof.
  intros Hwf. destruct (ProviderRequirements (acc s) !! name) as [p |] eqn:Hp.
  - destruct (lookup_lt_is_Some_2 _ _ (Hwf _ _ Hp)) as [r Hr].
    exists s, p. unfold requirementOf. rewrite Hp. simpl. rewrite Hr.
    repeat split; try assumption; reflexivity.
  - eexists _, _. split; [reflexivity |].
    split; [apply wellFormed_new_requirement, Hwf |].
    unfold requirementOf. rewrite Hp.
    split; [simpl; apply lookup_insert_eq |].
    split; [simpl; apply lookup_last | reflexivity].
Qed.

(** A [provider] block with its label on a well-formed accumulator: what
    it returns, and what is then found under the name and in the
    configurations. *)
Lemma providerCase_run block diags s name :
  wellFormed s ->
  Labels block !! 0 = Some name ->
  exists s',
    providerCase block diags s =
      (s', Some (((diags ++ (PartialContent (Block_Body block) providerConfigSchema).2)
                    ++ (declaredVersion
                          (PartialContent (Block_Body block) providerConfigSchema).1).2)
                   ++ (declaredAlias
                         (PartialContent (Block_Body block) providerConfigSchema).1).2)) /\
    wellFormed s' /\
    requirementOf s' name =
      Some (with_VersionConstraints
              (VersionConstraints (default unversioned (requirementOf s name))
                 ++ (declaredVersion
                       (PartialContent (Block_Body block) providerConfigSchema).1).1)
              (default unversioned (requirementOf s name))) /\
    ProviderConfigs (acc s') =
      <[providerConfigKey name (PartialContent (Block_Body block) providerConfigSchema).1
        := {| providerConfig_Name := name;
              providerConfig_Alias :=
                (declaredAlias
                   (PartialContent (Block_Body block) providerConfigSchema).1).1 |}]>
        (ProviderConfigs (acc s)).
Proof.
  intros Hwf Hname. unfold providerCase, providerConfigKey, declaredVersion, declaredAlias.
  destruct (PartialContent (Block_Body block) providerConfigSchema)
    as [content contentDiags]. cbn [fst snd].
  run_step ltac:(apply index_run, Hname).
  run_step ltac:(reflexivity).
  destruct (ensure_requirement_run s name Hwf) as (s1 & p & Hrun1 & Hwf1 & Hp1 & Hr1 & Hcfg1).
  run_step ltac:(exact Hrun1).
  set (existing := default unversioned (requirementOf s name)) in *.
  assert (Hlt : p < length (requirementCells (mem s1))) by (eapply lookup_lt_Some; eauto).
  (* the [version] attribute *)
  assert (Hversion : exists s2,
            (match Attributes content !! "version" with
             | Some attr =>
                 let '(version, valDiags) := DecodeExpression (Expr attr) in
                 let diags0 := (diags ++ contentDiags) ++ valDiags in
                 if negb (HasErrors valDiags)
                 then append_VersionConstraints name [version] ;;; ret diags0
                 else ret diags0
             | None => ret (diags ++ contentDiags)
             end) s1 =
              (s2, Some ((diags ++ contentDiags)
                           ++ (match Attributes content !! "version" with
                               | Some attr =>
                                   (if HasErrors (DecodeExpression (Expr attr)).2 then []
                                    else [(DecodeExpression (Expr attr)).1],
                                    (DecodeExpression (Expr attr)).2)
                               | None => ([], [])
                               end).2)) /\
            wellFormed s2 /\
            ProviderConfigs (acc s2) = ProviderConfigs (acc s) /\
            requirementOf s2 name =
              Some (with_VersionConstraints
                      (VersionConstraints existing
                         ++ (match Attributes content !! "version" with
                             | Some attr =>
                                 (if HasErrors (DecodeExpression (Expr attr)).2 then []
                                  else [(DecodeExpression (Expr attr)).1],
                                  (DecodeExpression (Expr attr)).2)
                             | None => ([], [])
                             end).1) existing)).
  { assert (Hsame : requirementOf s1 name =
                      Some (with_VersionConstraints (VersionConstraints existing ++ [])
                              existing)).
    { unfold requirementOf. rewrite Hp1. simpl. rewrite Hr1, app_nil_r.
      destruct existing; reflexivity. }
    destruct (Attributes content !! "version") as [attr |]; cbn [fst snd].
    - destruct (DecodeExpression (Expr attr)) as [version valDiags]. cbv zeta.
      cbn [fst snd].
      destruct (HasErrors valDiags); cbn [negb].
      + exists s1. repeat split; assumption.
      + eexists. split.
        * run_step ltac:(apply (append_VersionConstraints_run _ _ _ _ _ Hp1 Hr1)).
          reflexivity.
        * split; [eapply wellFormed_frame; [| | exact Hwf1]; simpl;
                  [reflexivity | apply length_insert] |].
          split; [exact Hcfg1 |].
          apply requirementOf_updated; assumption.
    - exists s1. rewrite app_nil_r. repeat split; assumption. }
  destruct Hversion as (s2 & Hrun2 & Hwf2 & Hcfg2 & Hreq2).
  run_step ltac:(exact Hrun2).
  destruct (Attributes content !! "alias") as [attr |]; cbn [fst snd].
  - destruct (DecodeExpression (Expr attr)) as [alias valDiags]. cbn [fst snd].
    destruct (negb (HasErrors valDiags) && negb (bool_decide (alias = "")));
      (eexists; split; [reflexivity |]);
      (split; [eapply wellFormed_frame; [| | exact Hwf2]; reflexivity |]);
      (split; [exact Hreq2 | simpl; rewrite Hcfg2; reflexivity]).
  - eexists. split; [unfold modify, bind, ret; rewrite app_nil_r; reflexivity |].
    split; [eapply wellFormed_frame; [| | exact Hwf2]; reflexivity |].
    split; [exact Hreq2 | simpl; rewrite Hcfg2; reflexivity].
Qed.

End ProviderBlocks.

(** Blocks for the examples that follow. *)
Module Sample.

(** [provider "aws" { version = "~> 2.0"  alias = "east" }] *)
Definition aws_east : Block :=
  Example.block "provider" ["aws"]
    (Example.body [("version", Example.literal "~> 2.0" 81);
                   ("alias", Example.literal "east" 82)] []) 80.

(** [provider "google" {}] *)
Definition google_plain : Block :=
  Example.block "provider" ["google"] (Example.body [] []) 90.

(** [provider "aws" { alias = var.region }]: the alias does not decode. *)
Definition aws_alias_variable : Block :=
  Example.block "provider" ["aws"]
    (Example.body [("alias", Example.variable "region" 96)] []) 95.

End Sample.

Lemma wellFormed_requires_hashicorp_aws : wellFormed Example.requires_hashicorp_aws.
Proof.
  intros name p Hp. simpl in Hp. apply lookup_singleton_Some in Hp as [_ <-].
  simpl. lia.
Qed.

Section ProviderBlockProperties.
Context `{Collaborators}.

(** X3. On a well-formed accumulator, a [provider] block labelled [name]
    leaves a requirement for [name]: the one that was there, or the
    unversioned one when there was none, with its source unchanged and
    with the [version] of the block appended to its constraints when that
    attribute is there and decodes without errors, and with nothing
    appended otherwise. *)
Theorem provider_block_ensures_requirement
    (diags : Diagnostics) (block : Block) (s : State) (name : string) :
  wellFormed s ->
  Block_Type block = "provider" ->
  Labels block !! 0 = Some name ->
  requirementOf (loadBlock diags block s).1 name =
    Some {| providerRequirement_Source :=
              providerRequirement_Source (default unversioned (requirementOf s name));
            VersionConstraints :=
              VersionConstraints (default unversioned (requirementOf s name))
                ++ (declaredVersion
                      (PartialContent (Block_Body block) providerConfigSchema).1).1 |}.
Proof.
  intros Hwf Hty Hname. rewrite (loadBlock_provider _ _ Hty).
  destruct (providerCase_run block diags s name Hwf Hname) as (s' & -> & _ & Hreq & _).
  exact Hreq.
Qed.

(** X4. On a well-formed accumulator, a [provider] block labelled [name]
    returns, and stores the configuration with that name and the decoded
    alias under the key [name.alias] when the alias decoded without errors
    to a non-empty string, and under [name] otherwise (no [alias]
    attribute, an alias that does not decode, an empty alias), replacing
    what that key held and leaving every other configuration alone.  The
    diagnostics returned are those given, then those of the schema filter,
    of the [version] and of the [alias], in this order. *)
Theorem provider_block_stores_configuration
    (diags : Diagnostics) (block : Block) (s : State) (name : string) :
  wellFormed s ->
  Block_Type block = "provider" ->
  Labels block !! 0 = Some name ->
  ProviderConfigs (acc (loadBlock diags block s).1) =
    <[providerConfigKey name (PartialContent (Block_Body block) providerConfigSchema).1
      := {| providerConfig_Name := name;
            providerConfig_Alias :=
              (declaredAlias
                 (PartialContent (Block_Body block) providerConfigSchema).1).1 |}]>
      (ProviderConfigs (acc s)) /\
  (loadBlock diags block s).2 =
    Some (((diags ++ (PartialContent (Block_Body block) providerConfigSchema).2)
             ++ (declaredVersion
                   (PartialContent (Block_Body block) providerConfigSchema).1).2)
            ++ (declaredAlias
                  (PartialContent (Block_Body block) providerConfigSchema).1).2).
Proof.
  intros Hwf Hty Hname. rewrite (loadBlock_provider _ _ Hty).
  destruct (providerCase_run block diags s name Hwf Hname) as (s' & -> & _ & _ & Hcfg).
  split; [exact Hcfg | reflexivity].
Qed.

End ProviderBlockProperties.

(** X3 on examples: [aws] is required from [hashicorp/aws] with
    [">= 2.0"] and the block adds ["~> 2.0"]; [google] is not required yet
    and the block has no version. *)
Lemma provider_block_ensures_requirement_witness :
  requirementOf (loadBlock [] Sample.aws_east Example.requires_hashicorp_aws).1 "aws" =
    Some {| providerRequirement_Source := "hashicorp/aws";
            VersionConstraints := [">= 2.0"; "~> 2.0"] |} /\
  requirementOf (loadBlock [] Sample.google_plain Example.requires_hashicorp_aws).1 "google" =
    Some {| providerRequirement_Source := ""; VersionConstraints := [] |}.
Proof.
  split.
  - refine (provider_block_ensures_requirement [] Sample.aws_east
              Example.requires_hashicorp_aws "aws" _ _ _).
    + exact wellFormed_requires_hashicorp_aws.
    + reflexivity.
    + reflexivity.
  - refine (provider_block_ensures_requirement [] Sample.google_plain
              Example.requires_hashicorp_aws "google" _ _ _).
    + exact wellFormed_requires_hashicorp_aws.
    + reflexivity.
    + reflexivity.
Defined.

(** X4 on examples: an alias that decodes, and one that does not. *)
Lemma provider_block_stores_configuration_witness :
  (ProviderConfigs (acc (loadBlock [] Sample.aws_east newState).1) =
     <["aws.east" := {| providerConfig_Name := "aws"; providerConfig_Alias := "east" |}]> ∅ /\
   (loadBlock [] Sample.aws_east newState).2 = Some []) /\
  (ProviderConfigs (acc (loadBlock [] Sample.aws_alias_variable newState).1) =
     <["aws" := {| providerConfig_Name := "aws"; providerConfig_Alias := "" |}]> ∅ /\
   (loadBlock [] Sample.aws_alias_variable newState).2 =
     Some [Example.error "Variables not allowed" (Example.at_line "main.tf" 96)]).
Proof.
  split.
  - refine (provider_block_stores_configuration [] Sample.aws_east newState "aws" _ _ _).
    + exact wellFormed_newState.
    + reflexivity.
    + reflexivity.
  - refine (provider_block_stores_configuration [] Sample.aws_alias_variable
              newState "aws" _ _ _).
    + exact wellFormed_newState.
    + reflexivity.
    + reflexivity.
Defined.

(** ** The requirements as a map from names to records *)

(** [separate s]: every provider name has a requirement record of its
    own: the pointer of each name has its cell, and no two names share a
    pointer. *)
Definition separate (s : State) : Prop :=
  wellFormed s /\
  forall n1 n2 p,
    ProviderRequirements (acc s) !! n1 = Some p ->
    ProviderRequirements (acc s) !! n2 = Some p ->
    n1 = n2.

(** The requirement a name has once a fragment was merged into what it had
    before: the fragment itself when it had nothing; otherwise the
    constraints of both, and the source that was there unless it was
    empty, in which case the source of the fragment. *)
Definition mergedRequirement (existing : option providerRequirement)
    (req : providerRequirement) : providerRequirement :=
  match existing with
  | None => req
  | Some e =>
      {| providerRequirement_Source :=
           if bool_decide (providerRequirement_Source e = "")
           then providerRequirement_Source req
           else providerRequirement_Source e;
         VersionConstraints := VersionConstraints e ++ VersionConstraints req |}
  end.

Lemma separate_newState : separate newState.
Proof.
  split; [exact wellFormed_newState |].
  intros n1 n2 p Hp. simpl in Hp. rewrite lookup_empty in Hp. discriminate.
Qed.

Lemma separate_frame s s' :
  ProviderRequirements (acc s') = ProviderRequirements (acc s) ->
  length (requirementCells (mem s')) = length (requirementCells (mem s)) ->
  separate s -> separate s'.
Proof.
  intros Hmap Hlen [Hwf Hinj]. split; [eapply wellFormed_frame; eassumption |].
  rewrite Hmap. exact Hinj.
Qed.

Lemma separate_new_requirement s name r :
  ProviderRequirements (acc s) !! name = None ->
  separate s ->
  separate (set_ProviderRequirements <[name := length (requirementCells (mem s))]>
              (set_requirementCells (fun c => c ++ [r]) s)).
Proof.
  intros Hnone [Hwf Hinj]. split; [apply wellFormed_new_requirement, Hwf |].
  intros n1 n2 p. simpl.
  destruct (decide (name = n1)) as [<- | Hne1]; destruct (decide (name = n2)) as [<- | Hne2];
    try reflexivity.
  - rewrite lookup_insert_eq, lookup_insert_ne by exact Hne2.
    intros [= <-] Hp2. specialize (Hwf _ _ Hp2). lia.
  - rewrite lookup_insert_ne, lookup_insert_eq by exact Hne1.
    intros Hp1 [= <-]. specialize (Hwf _ _ Hp1). lia.
  - rewrite !lookup_insert_ne by assumption. apply Hinj.
Qed.

Section RequirementsAsMap.
Context `{Collaborators}.

(** One fragment, on separate records: the merge returns, and changes
    what the name of the fragment has and nothing else. *)
Lemma mergeRequirement_view innerBlock diags name req s :
  separate s ->
  is_Some (mergeRequirement innerBlock diags (name, req) s).2 /\
  separate (mergeRequirement innerBlock diags (name, req) s).1 /\
  forall m,
    requirementOf (mergeRequirement innerBlock diags (name, req) s).1 m =
      if decide (m = name)
      then Some (mergedRequirement (requirementOf s name) req)
      else requirementOf s m.
Proof.
  intros [Hwf Hinj].
  destruct (ProviderRequirements (acc s) !! name) as [p |] eqn:Hp.
  - destruct (lookup_lt_is_Some_2 _ _ (Hwf _ _ Hp)) as [r Hr].
    rewrite (mergeRequirement_existing _ _ _ _ _ _ _ Hp Hr). cbn zeta. cbn [fst snd].
    split; [eexists; reflexivity |].
    split; [eapply separate_frame; [| | split; eassumption]; simpl;
            [reflexivity | apply length_insert] |].
    intros m. destruct (decide (m = name)) as [-> | Hne].
    + rewrite requirementOf_updated by (try assumption; eapply lookup_lt_Some; eauto).
      unfold requirementOf at 1. rewrite Hp. simpl. rewrite Hr. simpl. f_equal. f_equal.
      destruct (decide (providerRequirement_Source req = "")) as [Hreq | Hreq];
        destruct (decide (providerRequirement_Source r = "")) as [Hr0 | Hr0].
      * rewrite (bool_decide_eq_true_2 _ Hreq), (bool_decide_eq_true_2 _ Hr0). simpl.
        congruence.
      * rewrite (bool_decide_eq_true_2 _ Hreq), (bool_decide_eq_false_2 _ Hr0). reflexivity.
      * rewrite (bool_decide_eq_false_2 _ Hreq), (bool_decide_eq_true_2 _ Hr0).
        rewrite bool_decide_eq_false_2 by tauto. reflexivity.
      * rewrite (bool_decide_eq_false_2 _ Hreq), (bool_decide_eq_false_2 _ Hr0). simpl.
        destruct (decide (providerRequirement_Source r = providerRequirement_Source req))
          as [Heq | Hdiff].
        -- rewrite bool_decide_eq_false_2 by tauto. congruence.
        -- rewrite bool_decide_eq_true_2 by tauto. reflexivity.
    + unfold requirementOf. simpl.
      destruct (ProviderRequirements (acc s) !! m) as [q |] eqn:Hq; [| reflexivity].
      simpl. apply list_lookup_insert_ne. intros <-. apply Hne. eapply Hinj; eassumption.
  - unfold mergeRequirement, bind, gets. rewrite Hp. cbn [fst snd].
    split; [eexists; reflexivity |].
    split; [apply separate_new_requirement; [exact Hp | split; assumption] |].
    intros m. unfold requirementOf. simpl.
    destruct (decide (m = name)) as [-> | Hne].
    + rewrite lookup_insert_eq, Hp. simpl. apply lookup_last.
    + rewrite lookup_insert_ne by congruence.
      destruct (ProviderRequirements (acc s) !! m) as [q |] eqn:Hq; [| reflexivity].
      simpl. apply lookup_app_l, (Hwf _ _ Hq).
Qed.

(** The loop over the fragments of one block, in any order without
    repetition of a name. *)
Lemma mergeRequirements_view innerBlock entries : forall diags s,
  NoDup entries.*1 ->
  separate s ->
  is_Some (foldM (mergeRequirement innerBlock) diags entries s).2 /\
  separate (foldM (mergeRequirement innerBlock) diags entries s).1 /\
  forall m,
    requirementOf (foldM (mergeRequirement innerBlock) diags entries s).1 m =
      match (list_to_map entries : gmap string providerRequirement) !! m with
      | Some req => Some (mergedRequirement (requirementOf s m) req)
      | None => requirementOf s m
      end.
Proof.
  induction entries as [| [name req] entries IH]; intros diags s Hnodup Hsep.
  - simpl. split; [eexists; reflexivity |]. split; [exact Hsep |].
    intros m. rewrite lookup_empty. reflexivity.
  - simpl in Hnodup. apply NoDup_cons in Hnodup as [Hfresh Hnodup].
    destruct (mergeRequirement_view innerBlock diags name req s Hsep)
      as ([d1 Hd1] & Hsep1 & Hview1).
    destruct (mergeRequirement innerBlock diags (name, req) s) as [s1 o1] eqn:Hrun.
    cbn [fst snd] in *. subst o1.
    cbn [foldM]. rewrite (bind_run _ _ _ _ _ Hrun).
    destruct (IH d1 s1 Hnodup Hsep1) as (Hret & Hsep' & Hview').
    split; [exact Hret |]. split; [exact Hsep' |].
    intros m. rewrite Hview', Hview1, list_to_map_cons.
    destruct (decide (m = name)) as [-> | Hne].
    + rewrite lookup_insert_eq.
      rewrite (not_elem_of_list_to_map_1 _ _ Hfresh). reflexivity.
    + rewrite lookup_insert_ne by congruence. reflexivity.
Qed.

(** X1. On an accumulator whose provider names have separate records, a
    [required_providers] block is merged without a panic, the records stay
    separate, and afterwards every name the block declares has its
    fragment merged into what it had (the fragment itself if it had
    nothing; otherwise both sequences of constraints, and the first
    non-empty source) while every other name has what it had: the outcome
    does not depend on the order in which [range] visits the fragments. *)
Theorem required_providers_merge_ignores_order
    (diags : Diagnostics) (innerBlock : Block) (s : State) :
  separate s ->
  Block_Type innerBlock = "required_providers" ->
  is_Some (loadInnerBlock diags innerBlock s).2 /\
  separate (loadInnerBlock diags innerBlock s).1 /\
  forall name,
    requirementOf (loadInnerBlock diags innerBlock s).1 name =
      match (decodeRequiredProvidersBlock innerBlock).1 !! name with
      | Some req => Some (mergedRequirement (requirementOf s name) req)
      | None => requirementOf s name
      end.
Proof.
  intros Hsep Hty. unfold loadInnerBlock. rewrite decide_True by exact Hty.
  destruct (decodeRequiredProvidersBlock innerBlock) as [reqs reqsDiags]. cbn [fst].
  assert (Hnodup : NoDup (rangeOrder reqs).*1).
  { rewrite (rangeOrder_enumerates reqs). apply NoDup_fst_map_to_list. }
  destruct (mergeRequirements_view innerBlock (rangeOrder reqs) (diags ++ reqsDiags) s
              Hnodup Hsep) as (Hret & Hsep' & Hview).
  split; [exact Hret |]. split; [exact Hsep' |].
  intros name. rewrite Hview.
  rewrite (list_to_map_proper (rangeOrder reqs) (map_to_list reqs) Hnodup
             (rangeOrder_enumerates reqs)).
  rewrite list_to_map_to_list. reflexivity.
Qed.

End RequirementsAsMap.

(** Collaborators whose helper finds two fragments in every
    [required_providers] block, and whose [range] visits a map backwards. *)
Module Fragments.

Definition found : gmap string providerRequirement :=
  {[ "aws" := {| providerRequirement_Source := "example/aws";
                 VersionConstraints := ["~> 3.0"] |};
     "google" := {| providerRequirement_Source := "hashicorp/google";
                    VersionConstraints := [">= 1.0"] |} ]}.

Definition collaborators : Collaborators := {|
  rootSchema := @rootSchema Example.collaborators;
  terraformBlockSchema := @terraformBlockSchema Example.collaborators;
  providerConfigSchema := @providerConfigSchema Example.collaborators;
  resourceSchema := @resourceSchema Example.collaborators;
  moduleSchema := @moduleSchema Example.collaborators;
  ParseTraversalAbs := Example.parseDotted;
  decodeRequiredProvidersBlock := fun _ => (found, []);
  resource_MapKey := @resource_MapKey Example.collaborators;
  dataSource_MapKey := @dataSource_MapKey Example.collaborators;
  strconv_Quote := @strconv_Quote Example.collaborators;
  rangeOrder := fun m => reverse (map_to_list m);
  rangeOrder_enumerates := fun m => reverse_Permutation (map_to_list m)
|}.

End Fragments.

Lemma separate_requires_hashicorp_aws : separate Example.requires_hashicorp_aws.
Proof.
  split; [exact wellFormed_requires_hashicorp_aws |].
  intros n1 n2 p Hp1 Hp2. simpl in Hp1, Hp2.
  apply lookup_singleton_Some in Hp1 as [<- _].
  apply lookup_singleton_Some in Hp2 as [<- _]. reflexivity.
Qed.

(** X1 on an example: [aws] is required from [hashicorp/aws] and the
    block declares [aws] from [example/aws] and [google]. *)
Lemma required_providers_merge_ignores_order_witness :
  requirementOf
    (@loadInnerBlock Fragments.collaborators [] Example.required_providers_block
       Example.requires_hashicorp_aws).1 "aws" =
    Some {| providerRequirement_Source := "hashicorp/aws";
            VersionConstraints := [">= 2.0"; "~> 3.0"] |} /\
  requirementOf
    (@loadInnerBlock Fragments.collaborators [] Example.required_providers_block
       Example.requires_hashicorp_aws).1 "google" =
    Some {| providerRequirement_Source := "hashicorp/google";
            VersionConstraints := [">= 1.0"] |}.
Proof.
  pose proof (@required_providers_merge_ignores_order Fragments.collaborators []
                Example.required_providers_block Example.requires_hashicorp_aws
                separate_requires_hashicorp_aws eq_refl) as (_ & _ & Hview).
  split.
  - exact (Hview "aws").
  - exact (Hview "google").
Defined.

(** ** Relations the whole dispatcher preserves *)

Section DispatcherPreserves.
Context `{Collaborators}.
Context {R : State -> State -> Prop}.
Hypothesis R_refl : forall s, R s s.
Hypothesis R_trans : forall s1 s2 s3, R s1 s2 -> R s2 s3 -> R s1 s3.
Hypothesis R_RequiredCore : forall s version,
  R s (set_RequiredCore (fun c => c ++ [version]) s).
Hypothesis R_new_requirement : forall s name r,
  ProviderRequirements (acc s) !! name = None ->
  R s (set_ProviderRequirements <[name := length (requirementCells (mem s))]>
         (set_requirementCells (fun c => c ++ [r]) s)).
Hypothesis R_with_Source : forall s p r source,
  requirementCells (mem s) !! p = Some r ->
  R s (set_requirementCells <[p := with_Source source r]> s).
Hypothesis R_append_VersionConstraints : forall s p r vs,
  requirementCells (mem s) !! p = Some r ->
  R s (set_requirementCells
         <[p := with_VersionConstraints (VersionConstraints r ++ vs) r]> s).
Hypothesis R_ProviderConfigs : forall s key c, R s (set_ProviderConfigs <[key := c]> s).
Hypothesis R_Resources : forall s key p, R s (set_Resources <[key := p]> s).
Hypothesis R_DataSources : forall s key p, R s (set_DataSources <[key := p]> s).
Hypothesis R_ModuleSources : forall s key p, R s (set_ModuleSources <[key := p]> s).
Hypothesis R_resourceCells : forall s f, R s (set_resourceCells f s).
Hypothesis R_dataSourceCells : forall s f, R s (set_dataSourceCells f s).
Hypothesis R_moduleSourceCells : forall s f, R s (set_moduleSourceCells f s).

Lemma preserves_terraformCase block diags : preserves R (terraformCase block diags).
Proof.
  unfold terraformCase.
  destruct (PartialContent (Block_Body block) terraformBlockSchema)
    as [content contentDiags].
  apply preserves_bind; [assumption | |].
  - destruct (Attributes content !! "required_version") as [attr |];
      [| apply preserves_ret, R_refl].
    destruct (DecodeExpression (Expr attr)) as [version valDiags].
    destruct (negb (HasErrors valDiags)); [| apply preserves_ret, R_refl].
    apply preserves_bind; [assumption | |].
    + apply preserves_modify. intros s. apply R_RequiredCore.
    + intros _. apply preserves_ret, R_refl.
  - intros d. apply preserves_loadInnerBlocks; assumption.
Qed.

Lemma preserves_loadBlock diags block : preserves R (loadBlock diags block).
Proof.
  unfold loadBlock.
  destruct (decide _); [apply preserves_terraformCase |].
  destruct (decide _); [apply preserves_providerCase; assumption |].
  destruct (decide _); [apply preserves_dataCase; assumption |].
  destruct (decide _); [apply preserves_resourceCase; assumption |].
  destruct (decide _); [apply preserves_moduleCase; assumption |].
  apply preserves_ret, R_refl.
Qed.

Lemma preserves_loadModuleFromFile file : preserves R (loadModuleFromFile file).
Proof.
  unfold loadModuleFromFile.
  destruct (PartialContent (File_Body file) rootSchema) as [content contentDiags].
  apply preserves_foldM; [assumption.. |]. intros d b. apply preserves_loadBlock.
Qed.

Lemma preserves_loadModuleFromFiles files : preserves R (loadModuleFromFiles files).
Proof.
  induction files as [| file files IH]; simpl; [apply preserves_ret, R_refl |].
  apply preserves_bind; [assumption | apply preserves_loadModuleFromFile |].
  intros d. apply preserves_bind; [assumption | exact IH |].
  intros ds. apply preserves_ret, R_refl.
Qed.

End DispatcherPreserves.

(** [keeps P s s']: if [P] held in [s] it holds in [s']. *)
Definition keeps (P : State -> Prop) (s s' : State) : Prop := P s -> P s'.

Section Invariants.
Context `{Collaborators}.

(** X13. Across any sequence of calls on one accumulator, however the
    sequence ends (a panic ends it at once), nothing is taken away: the
    state it ends in has grown from the state it started in. *)
Theorem loadModuleFromFiles_only_grows (files : list File) (s : State) :
  grows s (loadModuleFromFiles files s).1.
Proof.
  apply (preserves_loadModuleFromFiles (R := grows));
    try first [exact grows_refl | exact grows_trans | exact grows_new_requirement
              | exact grows_RequiredCore].
  - intros s0 p r source Hr. eapply grows_requirement_cell; [exact Hr | reflexivity].
  - intros s0 p r vs Hr. eapply grows_requirement_cell; [exact Hr |].
    simpl. apply prefix_app_r. reflexivity.
  - intros. apply grows_same_cells; try reflexivity. simpl. apply dom_insert_subseteq.
  - intros. apply grows_same_cells; try reflexivity. simpl. apply dom_insert_subseteq.
  - intros. apply grows_same_cells; try reflexivity. simpl. apply dom_insert_subseteq.
  - intros. apply grows_same_cells; try reflexivity. simpl. apply dom_insert_subseteq.
  - intros. apply grows_same_cells; reflexivity.
  - intros. apply grows_same_cells; reflexivity.
  - intros. apply grows_same_cells; reflexivity.
Qed.

(** X5. Every provider name keeps a requirement record of its own: if
    the pointers of the requirements map have their cells and no two names
    share one before a call of [loadModuleFromFile], the same holds after
    it, however the call ends. *)
Theorem provider_records_stay_separate (file : File) (s : State) :
  separate s -> separate (loadModuleFromFile file s).1.
Proof.
  apply (preserves_loadModuleFromFile (R := keeps separate)); unfold keeps.
  - auto.
  - auto.
  - intros s0 v. apply separate_frame; reflexivity.
  - intros s0 name r. apply separate_new_requirement.
  - intros s0 p r source _. apply separate_frame; simpl;
      [reflexivity | apply length_insert].
  - intros s0 p r vs _. apply separate_frame; simpl;
      [reflexivity | apply length_insert].
  - intros. eapply separate_frame; [| | eassumption]; reflexivity.
  - intros. eapply separate_frame; [| | eassumption]; reflexivity.
  - intros. eapply separate_frame; [| | eassumption]; reflexivity.
  - intros. eapply separate_frame; [| | eassumption]; reflexivity.
  - intros. eapply separate_frame; [| | eassumption]; reflexivity.
  - intros. eapply separate_frame; [| | eassumption]; reflexivity.
  - intros. eapply separate_frame; [| | eassumption]; reflexivity.
Qed.

End Invariants.

(** ** What a declaration leaves alone *)

(** [sameProviders s s']: the required core versions, the provider
    requirements with their records, and the provider configurations are
    the same in [s'] as in [s]. *)
Definition sameProviders (s s' : State) : Prop :=
  RequiredCore (acc s') = RequiredCore (acc s) /\
  ProviderRequirements (acc s') = ProviderRequirements (acc s) /\
  requirementCells (mem s') = requirementCells (mem s) /\
  ProviderConfigs (acc s') = ProviderConfigs (acc s).

Lemma sameProviders_refl s : sameProviders s s.
Proof. repeat split. Qed.

Lemma sameProviders_trans s1 s2 s3 :
  sameProviders s1 s2 -> sameProviders s2 s3 -> sameProviders s1 s3.
Proof. unfold sameProviders. intros (? & ? & ? & ?) (? & ? & ? & ?). repeat split; congruence. Qed.

Lemma resourceOf_kept s key r k rec :
  k <> key ->
  resourceOf s k = Some rec ->
  resourceOf (set_Resources <[key := length (resourceCells (mem s))]>
                (set_resourceCells (fun c => c ++ [r]) s)) k = Some rec.
Proof.
  intros Hne. unfold resourceOf. simpl. rewrite lookup_insert_ne by congruence.
  destruct (Resources (acc s) !! k) as [q |]; [| discriminate]. simpl.
  apply lookup_app_l_Some.
Qed.

Lemma dataSourceOf_kept s key d k rec :
  k <> key ->
  dataSourceOf s k = Some rec ->
  dataSourceOf (set_DataSources <[key := length (dataSourceCells (mem s))]>
                  (set_dataSourceCells (fun c => c ++ [d]) s)) k = Some rec.
Proof.
  intros Hne. unfold dataSourceOf. simpl. rewrite lookup_insert_ne by congruence.
  destruct (DataSources (acc s) !! k) as [q |]; [| discriminate]. simpl.
  apply lookup_app_l_Some.
Qed.

Lemma moduleSourceOf_kept s key m k rec :
  k <> key ->
  moduleSourceOf s k = Some rec ->
  moduleSourceOf (set_ModuleSources <[key := length (moduleSourceCells (mem s))]>
                    (set_moduleSourceCells (fun c => c ++ [m]) s)) k = Some rec.
Proof.
  intros Hne. unfold moduleSourceOf. simpl. rewrite lookup_insert_ne by congruence.
  destruct (ModuleSources (acc s) !! k) as [q |]; [| discriminate]. simpl.
  apply lookup_app_l_Some.
Qed.

Section Locality.
Context `{Collaborators}.

(** X9. A [data], [resource] or [module] block, whatever its labels and
    attributes and however its processing ends, changes nothing about
    providers and versions: the required core versions, the provider
    requirements and their records, and the provider configurations are
    what they were.  (No requirement is made for the provider a resource
    refers to.) *)
Theorem declarations_leave_providers_alone
    (diags : Diagnostics) (block : Block) (s : State) :
  Block_Type block = "data" \/ Block_Type block = "resource" \/
  Block_Type block = "module" ->
  sameProviders s (loadBlock diags block s).1.
Proof.
  intros [Hty | [Hty | Hty]].
  - rewrite (loadBlock_data _ _ Hty).
    apply (preserves_dataCase (R := sameProviders));
      first [exact sameProviders_refl | exact sameProviders_trans
            | intros; repeat split].
  - rewrite (loadBlock_resource _ _ Hty).
    apply (preserves_resourceCase (R := sameProviders));
      first [exact sameProviders_refl | exact sameProviders_trans
            | intros; repeat split].
  - rewrite (loadBlock_module _ _ Hty).
    apply (preserves_moduleCase (R := sameProviders));
      first [exact sameProviders_refl | exact sameProviders_trans
            | intros; repeat split].
Qed.

(** X10. A declaration overwrites its own key only: after a [resource]
    block labelled [type] and [name], every record that was retrievable
    under another resource key is retrievable, unchanged, under that key;
    the same holds for [data] blocks and data-source keys, and for
    [module] blocks and module-call keys. *)
Theorem declaration_keeps_other_keys :
  (forall diags block s type name key rec,
     Block_Type block = "resource" ->
     Labels block = [type; name] ->
     key <> resource_MapKey {| resource_Type := type; resource_Name := name;
                               resource_Provider := zeroProviderRef |} ->
     resourceOf s key = Some rec ->
     resourceOf (loadBlock diags block s).1 key = Some rec) /\
  (forall diags block s type name key rec,
     Block_Type block = "data" ->
     Labels block = [type; name] ->
     key <> dataSource_MapKey {| dataSource_Type := type; dataSource_Name := name;
                                 dataSource_Provider := zeroProviderRef |} ->
     dataSourceOf s key = Some rec ->
     dataSourceOf (loadBlock diags block s).1 key = Some rec) /\
  (forall diags block s name key rec,
     Block_Type block = "module" ->
     Labels block = [name] ->
     key <> "module." +:+ name ->
     moduleSourceOf s key = Some rec ->
     moduleSourceOf (loadBlock diags block s).1 key = Some rec).
Proof.
  split; [| split].
  - intros diags block s type name key rec Hty Hlabels Hne Hrec.
    rewrite (loadBlock_resource _ _ Hty).
    rewrite (resourceCase_run block diags s type name) by (rewrite Hlabels; reflexivity).
    apply resourceOf_kept; assumption.
  - intros diags block s type name key rec Hty Hlabels Hne Hrec.
    rewrite (loadBlock_data _ _ Hty).
    rewrite (dataCase_run block diags s type name) by (rewrite Hlabels; reflexivity).
    apply dataSourceOf_kept; assumption.
  - intros diags block s name key rec Hty Hlabels Hne Hrec.
    rewrite (loadBlock_module _ _ Hty).
    rewrite (moduleCase_run block diags s name) by (rewrite Hlabels; reflexivity).
    apply moduleSourceOf_kept; assumption.
Qed.

End Locality.

(** ** Diagnostics are only ever appended *)

Lemma extends_ret diags more : extends diags (ret (diags ++ more)).
Proof. intros s s' d' [= _ <-]. apply prefix_app_r. reflexivity. Qed.

Lemma extends_ret_same diags : extends diags (ret diags).
Proof. intros s s' d' [= _ <-]. reflexivity. Qed.

Lemma extends_prefix diags diags' m :
  diags `prefix_of` diags' -> extends diags' m -> extends diags m.
Proof. intros Hpre Hm s s' d' Hrun. etrans; [exact Hpre | eapply Hm, Hrun]. Qed.

Lemma extends_bind {A} diags (m : M A) (k : A -> M Diagnostics) :
  (forall a, extends diags (k a)) -> extends diags (bind m k).
Proof.
  intros Hk s s' d' Hrun. unfold bind in Hrun.
  destruct (m s) as [s1 [a |]]; [eapply Hk, Hrun | discriminate].
Qed.

Lemma extends_bind_diags diags (m : M Diagnostics) (k : Diagnostics -> M Diagnostics) :
  extends diags m -> (forall d, extends d (k d)) -> extends diags (bind m k).
Proof.
  intros Hm Hk s s' d' Hrun. unfold bind in Hrun.
  destruct (m s) as [s1 [d1 |]] eqn:Hstep; [| discriminate].
  etrans; [eapply Hm, Hstep | eapply Hk, Hrun].
Qed.

Section DiagnosticsGrow.
Context `{Collaborators}.

Lemma extends_terraformCase block diags : extends diags (terraformCase block diags).
Proof.
  unfold terraformCase.
  destruct (PartialContent (Block_Body block) terraformBlockSchema)
    as [content contentDiags].
  apply extends_bind_diags; [| intros d; apply extends_loadInnerBlocks].
  destruct (Attributes content !! "required_version") as [attr |];
    [| apply extends_ret].
  destruct (DecodeExpression (Expr attr)) as [version valDiags]. cbv zeta.
  rewrite <- app_assoc.
  destruct (negb (HasErrors valDiags)); [| apply extends_ret].
  apply extends_bind. intros _. apply extends_ret.
Qed.

Lemma extends_providerCase block diags : extends diags (providerCase block diags).
Proof.
  unfold providerCase.
  destruct (PartialContent (Block_Body block) providerConfigSchema)
    as [content contentDiags].
  apply extends_bind. intros name. apply extends_bind. intros reqs.
  apply extends_bind. intros _.
  apply extends_bind_diags.
  - destruct (Attributes content !! "version") as [attr |]; [| apply extends_ret].
    destruct (DecodeExpression (Expr attr)) as [version valDiags]. cbv zeta.
    rewrite <- app_assoc.
    destruct (negb (HasErrors valDiags)); [| apply extends_ret].
    apply extends_bind. intros _. apply extends_ret.
  - intros d.
    assert (Hd : d `prefix_of`
                 (match Attributes content !! "alias" with
                  | Some attr =>
                      let '(alias, valDiags) := DecodeExpression (Expr attr) in
                      let diags0 := d ++ valDiags in
                      if negb (HasErrors valDiags) && negb (bool_decide (alias = ""))
                      then (name +:+ "." +:+ alias, alias, diags0)
                      else (name, alias, diags0)
                  | None => (name, "", d)
                  end).2).
    { destruct (Attributes content !! "alias") as [attr |]; [| reflexivity].
      destruct (DecodeExpression (Expr attr)) as [alias valDiags]. cbv zeta.
      destruct (_ && _); apply prefix_app_r; reflexivity. }
    destruct (match Attributes content !! "alias" with
              | Some attr => _ | None => _ end) as [[providerKey alias] d3].
    apply extends_bind. intros _. intros s s' d' [= _ <-]. exact Hd.
Qed.

Lemma extends_loadBlock diags block : extends diags (loadBlock diags block).
Proof.
  unfold loadBlock.
  destruct (decide _); [apply extends_terraformCase |].
  destruct (decide _); [apply extends_providerCase |].
  destruct (decide _).
  { unfold dataCase. destruct (PartialContent _ _) as [content contentDiags].
    do 5 (apply extends_bind; intros ?).
    destruct (Attributes content !! "provider") as [attr |].
    - apply extends_bind. intros [ref aDiags]. apply extends_bind. intros _.
      rewrite <- app_assoc. apply extends_ret.
    - do 2 (apply extends_bind; intros ?). apply extends_ret. }
  destruct (decide _).
  { unfold resourceCase. destruct (PartialContent _ _) as [content contentDiags].
    do 5 (apply extends_bind; intros ?).
    destruct (Attributes content !! "provider") as [attr |].
    - apply extends_bind. intros [ref aDiags]. apply extends_bind. intros _.
      rewrite <- app_assoc. apply extends_ret.
    - do 2 (apply extends_bind; intros ?). apply extends_ret. }
  destruct (decide _).
  { unfold moduleCase. destruct (PartialContent _ _) as [content contentDiags].
    do 4 (apply extends_bind; intros ?).
    destruct (Attributes content !! "source") as [attr |]; [| apply extends_ret].
    destruct (DecodeExpression (Expr attr)) as [source valDiags].
    apply extends_bind. intros _. rewrite <- app_assoc. apply extends_ret. }
  apply extends_ret_same.
Qed.

(** X11. No diagnostic is ever dropped or reordered: when the processing
    of a block returns, the diagnostics it returns start with those
    collected before the block; so the diagnostics [loadModuleFromFile]
    returns start with those of the schema filter of the file, and those
    of a block come before those of the blocks after it. *)
Theorem diagnostics_are_only_appended :
  (forall diags block s s' diags',
     loadBlock diags block s = (s', Some diags') -> diags `prefix_of` diags') /\
  (forall file s s' diags',
     loadModuleFromFile file s = (s', Some diags') ->
     (PartialContent (File_Body file) rootSchema).2 `prefix_of` diags') /\
  (forall diags block rest s s1 diags1 s' diags',
     loadBlock diags block s = (s1, Some diags1) ->
     foldM loadBlock diags (block :: rest) s = (s', Some diags') ->
     diags1 `prefix_of` diags').
Proof.
  split; [| split].
  - intros diags block s s' diags'. apply extends_loadBlock.
  - intros file s s' diags' Hrun. unfold loadModuleFromFile in Hrun.
    destruct (PartialContent (File_Body file) rootSchema) as [content contentDiags].
    cbn [snd]. eapply extends_foldM; [| exact Hrun].
    intros d b. apply extends_loadBlock.
  - intros diags block rest s s1 diags1 s' diags' Hblock Hrun.
    cbn [foldM] in Hrun. rewrite (bind_run _ _ _ _ _ Hblock) in Hrun.
    eapply extends_foldM; [| exact Hrun]. intros d b. apply extends_loadBlock.
Qed.

End DiagnosticsGrow.

(** ** Files for the examples *)

Module Files.

(** A file with one block of every kind the dispatcher knows. *)
Definition all_kinds : File :=
  {| File_Body :=
       Example.body []
         [Example.block "terraform" []
            (Example.body [("required_version", Example.literal ">= 0.12" 2)]
                          [Example.required_providers_block]) 1;
          Sample.aws_east;
          Example.web_in_east;
          Example.ubuntu_in_east;
          Example.vpc_local] |}.

(** A body that hands out its blocks whatever the schema. *)
Definition unfiltered (blocks : list Block) : Body :=
  MkBody (fun _ => ({| Attributes := ∅; Blocks := blocks |}, [])).

(** A file of [variable] and [output] blocks only. *)
Definition variables_only : File :=
  {| File_Body :=
       unfiltered [Example.block "variable" ["region"] (Example.body [] []) 1;
                   Example.block "output" ["id"] (Example.body [] []) 5] |}.

(** [resource "aws_instance" {}]: the name is missing. *)
Definition resource_without_name : Block :=
  Example.block "resource" ["aws_instance"] (Example.body [] []) 9.

End Files.

Section NoPanic.
Context `{Collaborators}.

(** X12. [loadModuleFromFile] does not panic on what the schema filter
    gives it: on an accumulator whose requirement pointers have their
    cells, and a file whose [provider] and [module] blocks have a label,
    whose [data] and [resource] blocks have two, and whose [provider]
    attributes give no traversal or an absolute one, the call returns; and
    the accumulator it leaves is again one whose pointers have their
    cells, fit for the next file. *)
Theorem loadModuleFromFile_does_not_panic (file : File) (s : State) :
  wellFormed s ->
  Forall wellShaped (Blocks (PartialContent (File_Body file) rootSchema).1) ->
  exists s' diags,
    loadModuleFromFile file s = (s', Some diags) /\ wellFormed s'.
Proof.
  intros Hwf Hshape.
  destruct (loadModuleFromFile_returns file Hshape s Hwf) as [[diags Hd] Hwf'].
  destruct (loadModuleFromFile file s) as [s' o]. cbn [fst snd] in *. subst o.
  exists s', diags. split; [reflexivity | exact Hwf'].
Qed.

End NoPanic.

(** A concrete block is well shaped. *)
Ltac well_shaped :=
  split;
  [ intros [Hty | Hty]; first [discriminate Hty | eexists; reflexivity]
  | intros [Hty | Hty]; try discriminate Hty;
    (split; [eexists; reflexivity |]);
    (split; [eexists; reflexivity |]);
    intros attr Hattr; vm_compute in Hattr;
    first [discriminate Hattr
          | injection Hattr as <-; right; eexists; reflexivity] ].

Lemma wellShaped_all_kinds :
  Forall wellShaped (Blocks (PartialContent (File_Body Files.all_kinds) rootSchema).1).
Proof.
  change (Forall wellShaped
            [Example.block "terraform" []
               (Example.body [("required_version", Example.literal ">= 0.12" 2)]
                             [Example.required_providers_block]) 1;
             Sample.aws_east; Example.web_in_east; Example.ubuntu_in_east;
             Example.vpc_local]).
  repeat (constructor; [well_shaped |]). constructor.
Qed.

(** X12 on an example: the file with every kind of block, on a fresh
    accumulator. *)
Lemma loadModuleFromFile_does_not_panic_witness :
  exists s' diags,
    loadModuleFromFile Files.all_kinds newState = (s', Some diags) /\ wellFormed s'.
Proof.
  apply (loadModuleFromFile_does_not_panic Files.all_kinds newState).
  - exact wellFormed_newState.
  - exact wellShaped_all_kinds.
Defined.

(** X6 on an example: a file of [variable] and [output] blocks. *)
Lemma unknown_blocks_are_skipped_witness :
  loadModuleFromFile Files.variables_only Example.requires_hashicorp_aws =
    (Example.requires_hashicorp_aws, Some []).
Proof.
  apply (unknown_blocks_are_skipped Files.variables_only Example.requires_hashicorp_aws).
  change (Forall (fun block => Block_Type block ∉ dispatchedTypes)
            [Example.block "variable" ["region"] (Example.body [] []) 1;
             Example.block "output" ["id"] (Example.body [] []) 5]).
  repeat (constructor;
          [unfold dispatchedTypes; simpl; intros Hin;
           repeat (apply elem_of_cons in Hin as [Hin | Hin]; [discriminate Hin |]);
           inversion Hin |]).
  constructor.
Defined.

(** X7 on an example: a [resource] block with one label, followed by
    another block. *)
Lemma missing_label_panics_before_any_write_witness :
  loadBlock [] Files.resource_without_name Example.requires_hashicorp_aws =
    (Example.requires_hashicorp_aws, None) /\
  foldM loadBlock [] [Files.resource_without_name; Example.vpc_local]
    Example.requires_hashicorp_aws = (Example.requires_hashicorp_aws, None).
Proof.
  apply (missing_label_panics_before_any_write [] Files.resource_without_name
           [Example.vpc_local] Example.requires_hashicorp_aws).
  right. split; [right; reflexivity | simpl; lia].
Defined.

(** X5 on an example: the file with every kind of block, with the
    collaborators that find fragments for [aws] and [google]. *)
Lemma provider_records_stay_separate_witness :
  separate (@loadModuleFromFile Fragments.collaborators Files.all_kinds newState).1.
Proof.
  apply (@provider_records_stay_separate Fragments.collaborators Files.all_kinds newState).
  exact separate_newState.
Defined.

(** X9 on an example: a resource that refers to provider [aws.east], on an
    accumulator that requires [aws]. *)
Lemma declarations_leave_providers_alone_witness :
  sameProviders Example.requires_hashicorp_aws
    (loadBlock [] Example.web_in_east Example.requires_hashicorp_aws).1.
Proof.
  apply (declarations_leave_providers_alone [] Example.web_in_east
           Example.requires_hashicorp_aws).
  right. left. reflexivity.
Defined.

(** X10 on an example: [aws_instance.web] declared again after
    [aws_instance.db]. *)
Lemma declaration_keeps_other_keys_witness :
  resourceOf
    (loadBlock [] Example.web_plain
       (loadBlock []
          (Example.block "resource" ["aws_instance"; "db"] (Example.body [] []) 30)
          (loadBlock [] Example.web_in_east newState).1).1).1
    "aws_instance.db" =
    Some {| resource_Type := "aws_instance"; resource_Name := "db";
            resource_Provider := {| LocalName := "aws"; ProviderRef_Alias := "" |} |}.
Proof.
  refine (proj1 declaration_keeps_other_keys [] Example.web_plain _
            "aws_instance" "web" "aws_instance.db" _ _ _ _ _).
  - reflexivity.
  - reflexivity.
  - discriminate.
  - vm_compute. reflexivity.
Defined.

(** X11 on an example: the diagnostic of a source that does not decode
    stays in front of what a later block adds. *)
Lemma diagnostics_are_only_appended_witness :
  [Example.error "Variables not allowed" (Example.at_line "main.tf" 61)]
    `prefix_of`
  default [] (foldM loadBlock [] [Example.vpc_variable; Sample.aws_alias_variable]
                newState).2.
Proof.
  refine (proj2 (proj2 diagnostics_are_only_appended) []
            Example.vpc_variable [Sample.aws_alias_variable] newState
            (loadBlock [] Example.vpc_variable newState).1 _
            (foldM loadBlock [] [Example.vpc_variable; Sample.aws_alias_variable]
               newState).1 _ _ _).
  - vm_compute. reflexivity.
  - vm_compute. reflexivity.
Defined.

(** ** One diagnostic for each conflicting source *)

(** [conflicts existing req]: the fragment [req] names a source, what the
    name has names one too, and they differ. *)
Definition conflicts (existing : option providerRequirement) (req : providerRequirement)
    : Prop :=
  match existing with
  | Some e =>
      providerRequirement_Source req <> "" /\
      providerRequirement_Source e <> "" /\
      providerRequirement_Source e <> providerRequirement_Source req
  | None => False
  end.

#[global] Instance conflicts_dec existing req : Decision (conflicts existing req).
Proof. destruct existing; simpl; apply _. Defined.

Lemma filter_agree {A} (P Q : A -> Prop)
    `{!forall x, Decision (P x)} `{!forall x, Decision (Q x)} (l : list A) :
  (forall x, x ∈ l -> P x <-> Q x) -> filter P l = filter Q l.
Proof.
  induction l as [| x l IH]; intros Hagree; [reflexivity |].
  rewrite !filter_cons.
  rewrite IH by (intros y Hy; apply Hagree; right; exact Hy).
  destruct (decide (P x)) as [HP | HP]; destruct (decide (Q x)) as [HQ | HQ];
    try reflexivity; exfalso; [apply HQ | apply HP]; apply (Hagree x); try left; assumption.
Qed.

Section Conflicts.
Context `{Collaborators}.

(** The diagnostic of the conflict between the fragment [entry] and what
    its name has in [s]. *)
Definition conflictDiagnostic (innerBlock : Block) (s : State)
    (entry : string * providerRequirement) : Diagnostic :=
  multipleProviderSources innerBlock entry.1
    (providerRequirement_Source (default unversioned (requirementOf s entry.1)))
    (providerRequirement_Source entry.2).

Lemma mergeRequirement_diags innerBlock diags name req s d' :
  separate s ->
  (mergeRequirement innerBlock diags (name, req) s).2 = Some d' ->
  d' = diags ++ (if decide (conflicts (requirementOf s name) req)
                 then [conflictDiagnostic innerBlock s (name, req)] else []).
Proof.
  intros [Hwf _]. unfold conflictDiagnostic. cbn [fst snd].
  destruct (ProviderRequirements (acc s) !! name) as [p |] eqn:Hp.
  - destruct (lookup_lt_is_Some_2 _ _ (Hwf _ _ Hp)) as [r Hr].
    rewrite (mergeRequirement_existing _ _ _ _ _ _ _ Hp Hr). cbn zeta. cbn [snd].
    unfold requirementOf. rewrite Hp. simpl. rewrite Hr. simpl.
    intros [= <-].
    destruct (decide _) as [Hc | Hc].
    + rewrite bool_decide_eq_true_2 by exact Hc. reflexivity.
    + rewrite bool_decide_eq_false_2 by exact Hc. rewrite app_nil_r. reflexivity.
  - unfold mergeRequirement, bind, gets. rewrite Hp. cbn [snd].
    unfold requirementOf. rewrite Hp. simpl. intros [= <-].
    rewrite app_nil_r. reflexivity.
Qed.

Lemma mergeRequirements_diags innerBlock entries : forall diags s d',
  NoDup entries.*1 ->
  separate s ->
  (foldM (mergeRequirement innerBlock) diags entries s).2 = Some d' ->
  d' = diags ++ (conflictDiagnostic innerBlock s
                   <$> filter (fun entry => conflicts (requirementOf s entry.1) entry.2)
                         entries).
Proof.
  induction entries as [| [name req] entries IH]; intros diags s d' Hnodup Hsep Hrun.
  - simpl in Hrun. injection Hrun as <-. simpl. rewrite app_nil_r. reflexivity.
  - simpl in Hnodup. apply NoDup_cons in Hnodup as [Hfresh Hnodup].
    destruct (mergeRequirement_view innerBlock diags name req s Hsep)
      as ([d1 Hd1] & Hsep1 & Hview1).
    pose proof (mergeRequirement_diags innerBlock diags name req s d1 Hsep Hd1) as Hd1'.
    destruct (mergeRequirement innerBlock diags (name, req) s) as [s1 o1] eqn:Hstep.
    cbn [fst snd] in *. subst o1.
    cbn [foldM] in Hrun. rewrite (bind_run _ _ _ _ _ Hstep) in Hrun.
    rewrite (IH d1 s1 d' Hnodup Hsep1 Hrun), Hd1'.
    assert (Hother : forall entry, entry ∈ entries ->
              requirementOf s1 entry.1 = requirementOf s entry.1).
    { intros [n r] Hin. cbn [fst]. rewrite Hview1. rewrite decide_False; [reflexivity |].
      intros ->. apply Hfresh. apply list_elem_of_fmap. exists (name, r). auto. }
    assert (Hsame : filter (fun entry => conflicts (requirementOf s1 entry.1) entry.2)
                      entries =
                    filter (fun entry => conflicts (requirementOf s entry.1) entry.2)
                      entries).
    { apply filter_agree. intros entry Hin. rewrite (Hother entry Hin). reflexivity. }
    rewrite Hsame.
    assert (Hdiag : conflictDiagnostic innerBlock s1
                      <$> filter (fun entry => conflicts (requirementOf s entry.1) entry.2)
                            entries =
                    conflictDiagnostic innerBlock s
                      <$> filter (fun entry => conflicts (requirementOf s entry.1) entry.2)
                            entries).
    { apply list_fmap_ext. intros i entry Hi. unfold conflictDiagnostic.
      rewrite Hother; [reflexivity |].
      apply list_elem_of_lookup_2 in Hi. apply list_elem_of_filter in Hi. apply Hi. }
    rewrite Hdiag, filter_cons. cbn [fst snd].
    destruct (decide (conflicts (requirementOf s name) req)).
    + rewrite fmap_cons, <- app_assoc. reflexivity.
    + rewrite app_nil_r. reflexivity.
Qed.

(** X2. On an accumulator whose provider names have separate records, the
    diagnostics a [required_providers] block returns are the diagnostics
    collected before it, then those of its decoding, then the conflict
    diagnostics: exactly one for each name the block declares with a
    source that conflicts with the non-empty source the name already has,
    each an error with summary "Multiple provider source attributes" that
    names the provider and both sources, and none for the other names.
    The order in which [range] visits the fragments only permutes the
    conflict diagnostics among themselves. *)
Theorem required_providers_conflicts_are_counted
    (diags : Diagnostics) (innerBlock : Block) (s : State) (diags' : Diagnostics) :
  separate s ->
  Block_Type innerBlock = "required_providers" ->
  (loadInnerBlock diags innerBlock s).2 = Some diags' ->
  exists added,
    diags' = (diags ++ (decodeRequiredProvidersBlock innerBlock).2) ++ added /\
    added ≡ₚ
      (conflictDiagnostic innerBlock s
         <$> filter (fun entry => conflicts (requirementOf s entry.1) entry.2)
               (map_to_list (decodeRequiredProvidersBlock innerBlock).1)) /\
    Forall (fun d => Severity d = DiagError /\
                     Summary d = "Multiple provider source attributes") added /\
    length diags' =
      length diags + length (decodeRequiredProvidersBlock innerBlock).2
      + length (filter (fun entry => conflicts (requirementOf s entry.1) entry.2)
                  (map_to_list (decodeRequiredProvidersBlock innerBlock).1)).
Proof.
  intros Hsep Hty. unfold loadInnerBlock. rewrite decide_True by exact Hty.
  destruct (decodeRequiredProvidersBlock innerBlock) as [reqs reqsDiags]. cbn [fst snd].
  intros Hrun.
  assert (Hnodup : NoDup (rangeOrder reqs).*1).
  { rewrite (rangeOrder_enumerates reqs). apply NoDup_fst_map_to_list. }
  pose proof (mergeRequirements_diags _ _ _ _ _ Hnodup Hsep Hrun) as ->.
  eexists. split; [reflexivity |].
  split; [rewrite (rangeOrder_enumerates reqs); reflexivity |].
  split.
  - apply Forall_fmap, Forall_forall. intros entry _. split; reflexivity.
  - rewrite !length_app, length_fmap, (rangeOrder_enumerates reqs). reflexivity.
Qed.

End Conflicts.

(** X2 on an example: [aws] is required from [hashicorp/aws] and the
    block declares it from [example/aws]; [google] is new. *)
Lemma required_providers_conflicts_are_counted_witness :
  exists added,
    default [] (@loadInnerBlock Fragments.collaborators [] Example.required_providers_block
                  Example.requires_hashicorp_aws).2 = ([] ++ []) ++ added /\
    added ≡ₚ [@multipleProviderSources Fragments.collaborators
                Example.required_providers_block "aws" "hashicorp/aws" "example/aws"] /\
    Forall (fun d => Severity d = DiagError /\
                     Summary d = "Multiple provider source attributes") added /\
    length (default [] (@loadInnerBlock Fragments.collaborators []
                          Example.required_providers_block
                          Example.requires_hashicorp_aws).2) = 0 + 0 + 1.
Proof.
  refine (@required_providers_conflicts_are_counted Fragments.collaborators []
            Example.required_providers_block Example.requires_hashicorp_aws _
            separate_requires_hashicorp_aws eq_refl _).
  vm_compute. reflexivity.
Defined.
